(** * dummycdd: a Linux character device driver, embedded and verified

    Shallow embedding of [dummycdd.c].  The driver keeps its state in seven
    file-scope variables and talks to the kernel through the driver-model API
    ([register_chrdev], [class_create], [device_create] and their inverses),
    [copy_from_user] and [printk].

    - the file-scope variables are the record [globals];
    - the part of the kernel that the driver can change is the record
      [kernel]: the table of registered character-device majors, the set of
      live device classes and the table of live device nodes;
    - every call that leaves the driver is appended to a trace of [call]s,
      with its arguments as they are at the time of the call;
    - the driver's functions are computations in the state monad [M] over
      [world] (globals, kernel, trace).

    Integers are those of an LP64 Linux target (x86_64, arm64): [int] is 32
    bits, [long], [long long], [size_t], [ssize_t] and pointers are 64 bits.
    The kernel is built with [-fno-strict-overflow], so signed arithmetic
    wraps; every conversion the C code performs is written out. *)

From stdpp Require Import gmap strings list pretty.
From Stdlib Require Import ZArith Strings.Byte.

Open Scope Z_scope.

(** ** Machine integers *)

Definition u32 (z : Z) : Z := z mod 2 ^ 32.
Definition u64 (z : Z) : Z := z mod 2 ^ 64.
Definition s32 (z : Z) : Z := (z + 2 ^ 31) mod 2 ^ 32 - 2 ^ 31.
Definition s64 (z : Z) : Z := (z + 2 ^ 63) mod 2 ^ 64 - 2 ^ 63.

Definition INT_MAX : Z := 2 ^ 31 - 1.
Definition INT_MIN : Z := - 2 ^ 31.
Definition SIZE_MAX : Z := 2 ^ 64 - 1.
Definition SSIZE_MAX : Z := 2 ^ 63 - 1.

(** ** Kernel definitions the driver uses (linux/err.h, linux/kdev_t.h) *)

Definition MAX_ERRNO : Z := 4095.
Definition NULL : Z := 0.

(** [IS_ERR(p)] is [(unsigned long)p >= (unsigned long)-MAX_ERRNO]. *)
Definition IS_ERR (p : Z) : bool := u64 (- MAX_ERRNO) <=? u64 p.

(** [PTR_ERR(p)] is [(long)p]. *)
Definition PTR_ERR (p : Z) : Z := s64 p.

Definition MINORBITS : Z := 20.

(** [MKDEV(ma, mi)] is [((ma) << MINORBITS) | (mi)], a 32-bit [dev_t]. *)
Definition MKDEV (ma mi : Z) : Z := u32 (Z.lor (Z.shiftl ma MINORBITS) mi).

(** ** The driver's file-scope state *)

Definition DEVICE_NAME : string := "dummycdd".
Definition CLASS_NAME : string := "dummycdd".

(** [sizeof(message)] *)
Definition sizeof_message : Z := 256.

Record globals := Globals {
  majorNumber : Z;          (* static int    majorNumber            *)
  message : list byte;      (* static char   message[256] = {0}     *)
  numberOpens : Z;          (* static int    numberOpens = 0        *)
  dummyClass : Z;           (* static struct class*  dummyClass     *)
  dummyDevice : Z;          (* static struct device* dummyDevice    *)
  device_name : string;     (* static char   device_name[32] = {0}  *)
  id : Z                    (* static int    id = 1 (module_param)  *)
}.

(** The state at module load; [id] is the value of the module parameter. *)
Definition load_globals (param_id : Z) : globals :=
  {| majorNumber := 0;
     message := replicate (Z.to_nat sizeof_message) x00;
     numberOpens := 0;
     dummyClass := NULL;
     dummyDevice := NULL;
     device_name := "";
     id := param_id |}.

(** ** Calls that leave the driver *)

Inductive loglevel := KERN_INFO | KERN_ALERT.

(** A [printk] argument, as passed: a NUL-terminated name, an integer, or
    the [message] array (all [sizeof(message)] bytes as they are at the call). *)
Inductive parg :=
| PStr (s : string)
| PInt (z : Z)
| PBuf (b : list byte).

Inductive call :=
| Printk (lvl : loglevel) (fmt : string) (args : list parg)
| RegisterChrdev (major : Z) (name : string) (ret : Z)
| UnregisterChrdev (major : Z) (name : string)
| ClassCreate (name : string) (ret : Z)
| ClassUnregister (cls : Z)
| ClassDestroy (cls : Z)
| DeviceCreate (cls : Z) (devt : Z) (name : string) (ret : Z)
| DeviceDestroy (cls : Z) (devt : Z)
| CopyFromUser (from : Z) (n : Z) (ret : Z).

(** ** The kernel state the driver can change *)

Record kernel := Kernel {
  chrdevs : gmap Z string;     (* major |-> name of the registered chrdev  *)
  classes : gset Z;            (* live [struct class] pointers             *)
  devices : gmap (Z * Z) Z;    (* (class, dev_t) |-> live [struct device]  *)
  misuse : list call           (* calls made on an object that is not live *)
}.

Definition boot_kernel : kernel :=
  {| chrdevs := ∅; classes := ∅; devices := ∅; misuse := [] |}.

Record world := World {
  glob : globals;
  kern : kernel;
  trace : list call
}.

Definition load_world (param_id : Z) : world :=
  {| glob := load_globals param_id; kern := boot_kernel; trace := [] |}.

(** ** The state monad of the driver *)

Definition M (A : Type) : Type := world → A * world.

Definition ret {A} (a : A) : M A := λ w, (a, w).
Definition bind {A B} (m : M A) (k : A → M B) : M B :=
  λ w, let '(a, w') := m w in k a w'.

Declare Scope drv_scope.
Delimit Scope drv_scope with drv.
Notation "x <- m ; k" := (bind m (λ x, k))
  (at level 100, m at next level, right associativity) : drv_scope.
Notation "m ;; k" := (bind m (λ _, k))
  (at level 100, right associativity) : drv_scope.
Open Scope drv_scope.

Definition get : M globals := λ w, (glob w, w).
Definition put (g : globals) : M unit :=
  λ w, (tt, {| glob := g; kern := kern w; trace := trace w |}).
Definition emit (c : call) : M unit :=
  λ w, (tt, {| glob := glob w; kern := kern w; trace := trace w ++ [c] |}).
Definition on_kernel (f : kernel → kernel) : M unit :=
  λ w, (tt, {| glob := glob w; kern := f (kern w); trace := trace w |}).

Definition set_majorNumber (v : Z) (g : globals) : globals :=
  {| majorNumber := v; message := message g; numberOpens := numberOpens g;
     dummyClass := dummyClass g; dummyDevice := dummyDevice g;
     device_name := device_name g; id := id g |}.
Definition set_message (v : list byte) (g : globals) : globals :=
  {| majorNumber := majorNumber g; message := v; numberOpens := numberOpens g;
     dummyClass := dummyClass g; dummyDevice := dummyDevice g;
     device_name := device_name g; id := id g |}.
Definition set_numberOpens (v : Z) (g : globals) : globals :=
  {| majorNumber := majorNumber g; message := message g; numberOpens := v;
     dummyClass := dummyClass g; dummyDevice := dummyDevice g;
     device_name := device_name g; id := id g |}.
Definition set_dummyClass (v : Z) (g : globals) : globals :=
  {| majorNumber := majorNumber g; message := message g;
     numberOpens := numberOpens g; dummyClass := v;
     dummyDevice := dummyDevice g; device_name := device_name g; id := id g |}.
Definition set_dummyDevice (v : Z) (g : globals) : globals :=
  {| majorNumber := majorNumber g; message := message g;
     numberOpens := numberOpens g; dummyClass := dummyClass g;
     dummyDevice := v; device_name := device_name g; id := id g |}.
Definition set_device_name (v : string) (g : globals) : globals :=
  {| majorNumber := majorNumber g; message := message g;
     numberOpens := numberOpens g; dummyClass := dummyClass g;
     dummyDevice := dummyDevice g; device_name := v; id := id g |}.

Definition modify (f : globals → globals) : M unit := g <- get; put (f g).

(** ** The kernel API, as the driver sees it

    Whether an acquisition succeeds is the kernel's decision; the value each
    fallible call returns is supplied from outside ([answers] below), and the
    kernel state follows it.  The releasing calls are deterministic. *)

Definition with_chrdevs (f : gmap Z string → gmap Z string) (k : kernel) : kernel :=
  {| chrdevs := f (chrdevs k); classes := classes k; devices := devices k;
     misuse := misuse k |}.
Definition with_classes (f : gset Z → gset Z) (k : kernel) : kernel :=
  {| chrdevs := chrdevs k; classes := f (classes k); devices := devices k;
     misuse := misuse k |}.
Definition with_devices (f : gmap (Z * Z) Z → gmap (Z * Z) Z) (k : kernel) : kernel :=
  {| chrdevs := chrdevs k; classes := classes k; devices := f (devices k);
     misuse := misuse k |}.
Definition flag_misuse (c : call) (k : kernel) : kernel :=
  {| chrdevs := chrdevs k; classes := classes k; devices := devices k;
     misuse := misuse k ++ [c] |}.

(** [register_chrdev(major, name, fops)]: a negative result is an errno and
    registers nothing; with [major = 0] a successful call returns the major
    it allocated, otherwise it returns 0 and registers [major]. *)
Definition do_register_chrdev (major : Z) (name : string) (r : Z) (k : kernel) : kernel :=
  if r <? 0 then k
  else with_chrdevs (insert (if major =? 0 then r else major) name) k.

(** [unregister_chrdev(major, name)] drops the entry of [major], if any. *)
Definition do_unregister_chrdev (major : Z) (k : kernel) : kernel :=
  with_chrdevs (delete major) k.

(** [class_create(owner, name)] returns a new class or an [ERR_PTR]. *)
Definition do_class_create (r : Z) (k : kernel) : kernel :=
  if IS_ERR r then k else with_classes (λ s, {[r]} ∪ s) k.

(** [class_unregister(cls)] releases a live class (the last reference goes
    and the structure is freed); on a class that is not live it works on
    freed memory, recorded as [misuse] of the call [c] that led to it. *)
Definition do_class_unregister (c : call) (cls : Z) (k : kernel) : kernel :=
  if decide (cls ∈ classes k) then with_classes (λ s, s ∖ {[cls]}) k
  else flag_misuse c k.

(** [class_destroy(cls)] is
    [if ((cls == NULL) || (IS_ERR(cls))) return; class_unregister(cls);] *)
Definition do_class_destroy (c : call) (cls : Z) (k : kernel) : kernel :=
  if (cls =? NULL) || IS_ERR cls then k else do_class_unregister c cls k.

(** [device_create(cls, parent, devt, drvdata, name)] returns the new device
    of class [cls] or an [ERR_PTR]. *)
Definition do_device_create (c : call) (cls devt r : Z) (k : kernel) : kernel :=
  if IS_ERR r then k
  else if decide (cls ∈ classes k) then with_devices (insert (cls, devt) r) k
  else flag_misuse c k.

(** [device_destroy(cls, devt)] looks the device up in its class and
    unregisters it when found. *)
Definition do_device_destroy (c : call) (cls devt : Z) (k : kernel) : kernel :=
  if decide (cls ∈ classes k) then with_devices (delete (cls, devt)) k
  else flag_misuse c k.

Definition printk (lvl : loglevel) (fmt : string) (args : list parg) : M unit :=
  emit (Printk lvl fmt args).

Definition register_chrdev (answer major : Z) (name : string) : M Z :=
  on_kernel (do_register_chrdev major name answer);;
  emit (RegisterChrdev major name answer);;
  ret answer.

(** The C parameter [major] is an [unsigned int]; the driver's [int] is
    recorded as the driver holds it.  For the non-negative majors of a
    registered device the conversion changes nothing; the driver makes this
    call with no other. *)
Definition unregister_chrdev (major : Z) (name : string) : M unit :=
  on_kernel (do_unregister_chrdev major);;
  emit (UnregisterChrdev major name).

Definition class_create (answer : Z) (name : string) : M Z :=
  on_kernel (do_class_create answer);;
  emit (ClassCreate name answer);;
  ret answer.

Definition class_unregister (cls : Z) : M unit :=
  on_kernel (do_class_unregister (ClassUnregister cls) cls);;
  emit (ClassUnregister cls).

Definition class_destroy (cls : Z) : M unit :=
  on_kernel (do_class_destroy (ClassDestroy cls) cls);;
  emit (ClassDestroy cls).

Definition device_create (answer cls devt : Z) (name : string) : M Z :=
  on_kernel (do_device_create (DeviceCreate cls devt name answer) cls devt answer);;
  emit (DeviceCreate cls devt name answer);;
  ret answer.

Definition device_destroy (cls devt : Z) : M unit :=
  on_kernel (do_device_destroy (DeviceDestroy cls devt) cls devt);;
  emit (DeviceDestroy cls devt).

(** *** User memory and [copy_from_user]

    The caller's address space maps an address to a byte, or to nothing
    where a read faults. *)
Definition user_space : Type := Z → option byte.

(** The bytes read from [from] on, up to [n] of them, stopping at a fault. *)
Fixpoint raw_copy_from_user (u : user_space) (from : Z) (n : nat) : list byte :=
  match n with
  | O => []
  | S n' =>
      match u (u64 from) with
      | Some b => b :: raw_copy_from_user u (from + 1) n'
      | None => []
      end
  end.

(** [copy_from_user(to, from, n)] on a destination array [to] of at least
    [n] bytes: the bytes that could be read go to the front of [to], the
    rest of the first [n] bytes is zeroed, everything from offset [n] on is
    left alone; the result is the number of bytes that could not be copied. *)
Definition copy_bytes (u : user_space) (to : list byte) (from n : Z) : list byte * Z :=
  let got := raw_copy_from_user u from (Z.to_nat n) in
  let res := n - Z.of_nat (length got) in
  (got ++ replicate (Z.to_nat res) x00 ++ drop (Z.to_nat n) to, res).

(** The driver's only destination is [message]. *)
Definition copy_from_user (u : user_space) (from n : Z) : M Z :=
  g <- get;
  let '(m, res) := copy_bytes u (message g) from n in
  put (set_message m g);;
  emit (CopyFromUser from n res);;
  ret res.

(** ** The driver *)

(** What the kernel answers to the three acquisitions of [dummycdd_init]. *)
Record answers := Answers {
  register_chrdev_ret : Z;    (* int: a major, or a negative errno *)
  class_create_ret : Z;       (* struct class*, or ERR_PTR         *)
  device_create_ret : Z       (* struct device*, or ERR_PTR        *)
}.

(** [sprintf(device_name, DEVICE_NAME"%d", id)] *)
Definition sprintf_name (n : Z) : string := DEVICE_NAME +:+ pretty n.

Definition dummycdd_init (env : answers) : M Z :=
  modify (λ g, set_device_name (sprintf_name (id g)) g);;
  g <- get;
  let name := device_name g in
  printk KERN_INFO "%s: Initializing the %s LKM\n" [PStr name; PStr name];;
  r <- register_chrdev (register_chrdev_ret env) 0 name;
  modify (set_majorNumber r);;
  if r <? 0 then
    printk KERN_ALERT "%s failed to register a major number\n" [PStr name];;
    ret r
  else
    printk KERN_INFO "%s: registered correctly with major number %d\n"
      [PStr name; PInt r];;
    c <- class_create (class_create_ret env) CLASS_NAME;
    modify (set_dummyClass c);;
    if IS_ERR c then
      unregister_chrdev r name;;
      printk KERN_ALERT "%s: Failed to register device class\n" [PStr name];;
      ret (s32 (PTR_ERR c))
    else
      printk KERN_INFO "%s: device class registered correctly\n" [PStr name];;
      d <- device_create (device_create_ret env) c (MKDEV r 0) name;
      modify (set_dummyDevice d);;
      if IS_ERR d then
        class_destroy c;;
        unregister_chrdev r name;;
        printk KERN_ALERT "%s: Failed to create the device\n" [PStr name];;
        ret (s32 (PTR_ERR d))
      else
        printk KERN_INFO "%s: device class created correctly\n" [PStr name];;
        ret 0.

Definition dummycdd_exit : M unit :=
  g <- get;
  device_destroy (dummyClass g) (MKDEV (majorNumber g) 0);;
  class_unregister (dummyClass g);;
  class_destroy (dummyClass g);;
  unregister_chrdev (majorNumber g) (device_name g);;
  printk KERN_INFO "%s: Goodbye from the LKM!\n" [PStr (device_name g)].

Definition dev_open (inodep filep : Z) : M Z :=
  modify (λ g, set_numberOpens (s32 (numberOpens g + 1)) g);;
  g <- get;
  printk KERN_INFO "%s: Device has been opened %d time(s)\n"
    [PStr (device_name g); PInt (numberOpens g)];;
  ret 0.

Definition dev_release (inodep filep : Z) : M Z :=
  g <- get;
  printk KERN_INFO "%s: Device successfully closed\n" [PStr (device_name g)];;
  ret 0.

(** One pass through the body of the [for] loop of [dev_write], at offset
    [i] (a [long long]); [len - i] and [buffer + i] are computed on 64-bit
    unsigned values. *)
Definition dev_write_body (u : user_space) (buffer len i : Z) : M unit :=
  let remainder := u64 (len - u64 i) in
  (if sizeof_message <? remainder
   then copy_from_user u (u64 (buffer + i)) sizeof_message
   else copy_from_user u (u64 (buffer + i)) remainder);;
  g <- get;
  printk KERN_INFO "%s" [PBuf (message g)].

(** [for(; i < len; i+=sizeof(message))]: the comparison is unsigned (the
    [long long] is converted to the type of [size_t]), and so is the
    addition, whose result goes back into the [long long].  The loop need
    not end, hence the fuel: [None] means it was still running. *)
Fixpoint dev_write_loop (fuel : nat) (u : user_space) (buffer len i : Z)
    (w : world) : option world :=
  if u64 i <? len then
    match fuel with
    | O => None
    | S fuel' =>
        dev_write_loop fuel' u buffer len (s64 (u64 i + sizeof_message))
          (snd (dev_write_body u buffer len i w))
    end
  else Some w.

(** [dev_write(filep, buffer, len, offset)]; the [size_t len] is returned as
    an [ssize_t]. *)
Definition dev_write (fuel : nat) (u : user_space) (filep buffer len offset : Z)
    (w : world) : option (Z * world) :=
  let i := 0 in
  let w0 := snd (printk KERN_INFO
                   "%s: Received %zu characters from the user. Message: "
                   [PStr (device_name (glob w)); PInt len] w) in
  match dev_write_loop fuel u buffer len i w0 with
  | Some w' => Some (s64 len, w')
  | None => None
  end.

(** ** What a trace shows *)

(** The chunks a trace emitted: the arrays handed to [printk] under the
    format ["%s"] at level [KERN_INFO], in order. *)
Definition chunk_of (c : call) : option (list byte) :=
  match c with
  | Printk KERN_INFO fmt [PBuf b] => if decide (fmt = "%s") then Some b else None
  | _ => None
  end.
Definition chunks (tr : list call) : list (list byte) := omap chunk_of tr.

(** The copies a trace requested: source address and byte count. *)
Definition copy_of (c : call) : option (Z * Z) :=
  match c with
  | CopyFromUser from n _ => Some (from, n)
  | _ => None
  end.
Definition copies (tr : list call) : list (Z * Z) := omap copy_of tr.

(** The driver-model calls of a trace: everything but [printk] and
    [copy_from_user]. *)
Definition is_api (c : call) : bool :=
  match c with
  | Printk _ _ _ | CopyFromUser _ _ _ => false
  | _ => true
  end.
Definition api_calls (tr : list call) : list call := filter (λ c, is_api c = true) tr.

(** The three resources of the driver, and the one a call releases.
    [class_destroy] is [class_unregister] behind a NULL/ERR_PTR check, so
    both release the class. *)
Inductive resource := DeviceNode | DeviceClass | DeviceNumber.

Definition releases (c : call) : option resource :=
  match c with
  | DeviceDestroy _ _ => Some DeviceNode
  | ClassUnregister _ | ClassDestroy _ => Some DeviceClass
  | UnregisterChrdev _ _ => Some DeviceNumber
  | _ => None
  end.
Definition released (tr : list call) : list resource := omap releases tr.

(** The session counter after each of [n] successive [open]s, and the final
    state. *)
Fixpoint session (n : nat) (w : world) : list Z * world :=
  match n with
  | O => ([], w)
  | S n' =>
      let w1 := snd (dev_open 0 0 w) in
      let '(vs, w2) := session n' w1 in
      (numberOpens (glob w1) :: vs, w2)
  end.

(** *** The write loop, unrolled

    The loop of [dev_write] visits the offsets 0, 256, 512, ... below [len];
    at offset [off] it asks for [copy_len len off] bytes from address
    [buffer + off]. *)
Definition copy_len (len off : Z) : Z :=
  if sizeof_message <? len - off then sizeof_message else len - off.

Definition chunk_at (buffer len t : Z) : Z * Z :=
  (u64 (buffer + sizeof_message * t), copy_len len (sizeof_message * t)).

Definition chunk_count (len : Z) : Z := (len + (sizeof_message - 1)) / sizeof_message.

Definition chunk_plan (buffer len : Z) : list (Z * Z) :=
  chunk_at buffer len <$> seqZ 0 (chunk_count len).

(** What a list of copy requests (address, count) does to the holding
    buffer [m], one [copy_from_user] and one [printk] per request: the
    events in order, and the buffer at the end. *)
Fixpoint chunk_events (u : user_space) (cs : list (Z * Z)) (m : list byte)
    : list call * list byte :=
  match cs with
  | [] => ([], m)
  | c :: cs' =>
      let m1 := fst (copy_bytes u m c.1 c.2) in
      let res := snd (copy_bytes u m c.1 c.2) in
      let '(evs, m') := chunk_events u cs' m1 in
      (CopyFromUser c.1 c.2 res :: Printk KERN_INFO "%s" [PBuf m1] :: evs, m')
  end.

(** The header line [dev_write] logs before its loop. *)
Definition write_header (w : world) (len : Z) : call :=
  Printk KERN_INFO "%s: Received %zu characters from the user. Message: "
    [PStr (device_name (glob w)); PInt len].

(** A source buffer [src] lies readable at address [buffer]. *)
Definition readable (u : user_space) (buffer : Z) (src : list byte) : Prop :=
  ∀ (j : nat) (b : byte), src !! j = Some b → u (u64 (buffer + Z.of_nat j)) = Some b.

(** The text [printk] derives from an array under ["%s"]: the bytes before
    the first NUL.  When the array holds no NUL the read runs past its end,
    into whatever follows [message] in memory; that text is not described
    here, and the result is [None]. *)
Fixpoint c_string (b : list byte) : option (list byte) :=
  match b with
  | [] => None
  | x :: b' => if Byte.eqb x x00 then Some [] else cons x <$> c_string b'
  end.

(** The file operations a process can issue on the device node, and a
    sequence of them run in order; a write that is still running when its
    fuel is spent stops the run ([None]). *)
Inductive fop :=
| Open
| Release
| Write (u : user_space) (buffer len : Z) (fuel : nat).

Fixpoint run_ops (ops : list fop) (w : world) : option world :=
  match ops with
  | [] => Some w
  | Open :: ops' => run_ops ops' (snd (dev_open 0 0 w))
  | Release :: ops' => run_ops ops' (snd (dev_release 0 0 w))
  | Write u buffer len fuel :: ops' =>
      match dev_write fuel u 0 buffer len 0 w with
      | Some (_, w') => run_ops ops' w'
      | None => None
      end
  end.

Definition is_open (o : fop) : bool :=
  match o with Open => true | _ => false end.

(** The number of [Open]s in a sequence of operations. *)
Definition count_opens (ops : list fop) : Z :=
  Z.of_nat (length (filter (λ o, is_open o = true) ops)).

(** The bytes a list of copy requests asks for, in all. *)
Definition total_bytes (cs : list (Z * Z)) : Z := foldr (λ c acc, c.2 + acc) 0 cs.

(** ** Machine arithmetic *)

Lemma u64_range z : 0 ≤ u64 z < 2 ^ 64.
Proof. unfold u64. apply Z.mod_pos_bound. lia. Qed.

Lemma u64_small z : 0 ≤ z < 2 ^ 64 → u64 z = z.
Proof. intros. unfold u64. by apply Z.mod_small. Qed.

Lemma s64_small z : - 2 ^ 63 ≤ z < 2 ^ 63 → s64 z = z.
Proof. intros. unfold s64. rewrite Z.mod_small; lia. Qed.

Lemma s32_small z : - 2 ^ 31 ≤ z < 2 ^ 31 → s32 z = z.
Proof. intros. unfold s32. rewrite Z.mod_small; lia. Qed.

Lemma u64_s64 z : u64 (s64 z) = u64 z.
Proof.
  unfold u64, s64.
  rewrite <- Zminus_mod_idemp_l, Z.mod_mod by lia.
  rewrite Zminus_mod_idemp_l. f_equal. lia.
Qed.

Lemma s64_of_u64_high p : 2 ^ 63 ≤ u64 p → s64 p = u64 p - 2 ^ 64.
Proof.
  unfold s64, u64. intros H.
  pose proof (Z.mod_pos_bound p (2 ^ 64) ltac:(lia)) as Hp.
  rewrite (Z.div_mod p (2 ^ 64)) at 1 by lia.
  replace (2 ^ 64 * (p / 2 ^ 64) + p mod 2 ^ 64 + 2 ^ 63)
    with (p mod 2 ^ 64 - 2 ^ 63 + (p / 2 ^ 64 + 1) * 2 ^ 64) by lia.
  rewrite Z.mod_add by lia.
  rewrite Z.mod_small; lia.
Qed.

Lemma u64_u64 z : u64 (u64 z) = u64 z.
Proof. unfold u64. apply Z.mod_mod. lia. Qed.

Lemma u64_add_l a b : u64 (u64 a + b) = u64 (a + b).
Proof. unfold u64. apply Zplus_mod_idemp_l. Qed.

Lemma s32_add_l a b : s32 (s32 a + b) = s32 (a + b).
Proof.
  unfold s32. f_equal.
  replace ((a + 2 ^ 31) mod 2 ^ 32 - 2 ^ 31 + b + 2 ^ 31)
    with ((a + 2 ^ 31) mod 2 ^ 32 + b) by lia.
  rewrite Zplus_mod_idemp_l. f_equal. lia.
Qed.

(** ** Open and release *)

Lemma dev_open_counter inodep filep w :
  numberOpens (glob (snd (dev_open inodep filep w))) = s32 (numberOpens (glob w) + 1).
Proof. reflexivity. Qed.

Lemma dev_open_trace inodep filep w :
  trace (snd (dev_open inodep filep w)) =
  trace w ++ [Printk KERN_INFO "%s: Device has been opened %d time(s)\n"
                [PStr (device_name (glob w)); PInt (s32 (numberOpens (glob w) + 1))]].
Proof. reflexivity. Qed.

Lemma dev_release_state inodep filep w :
  glob (snd (dev_release inodep filep w)) = glob w
  ∧ kern (snd (dev_release inodep filep w)) = kern w.
Proof. split; reflexivity. Qed.

Lemma s32_range z : - 2 ^ 31 ≤ s32 z < 2 ^ 31.
Proof. unfold s32. pose proof (Z.mod_pos_bound (z + 2 ^ 31) (2 ^ 32)). lia. Qed.

Lemma session_final n : ∀ w,
  - 2 ^ 31 ≤ numberOpens (glob w) < 2 ^ 31 →
  numberOpens (glob (snd (session n w))) = s32 (numberOpens (glob w) + Z.of_nat n).
Proof.
  induction n as [|n IH]; intros w Hw.
  - cbn [session snd]. rewrite Z.add_0_r, s32_small; done.
  - cbn [session]. destruct (session n _) as [vs w2] eqn:E. cbn [snd].
    replace w2 with (snd (session n (snd (dev_open 0 0 w)))) by (by rewrite E).
    rewrite IH, dev_open_counter by (rewrite dev_open_counter; apply s32_range).
    rewrite s32_add_l. f_equal. lia.
Qed.

Lemma session_values n : ∀ w,
  fst (session n w) =
  (λ k, s32 (numberOpens (glob w) + k)) <$> seqZ 1 (Z.of_nat n).
Proof.
  induction n as [|n IH]; intros w.
  - reflexivity.
  - cbn [session]. destruct (session n _) as [vs w2] eqn:E. cbn [fst].
    replace vs with (fst (session n (snd (dev_open 0 0 w)))) by (by rewrite E).
    rewrite IH, dev_open_counter.
    rewrite (seqZ_cons 1 (Z.of_nat (S n))) by lia. rewrite fmap_cons. f_equal.
    replace (Z.pred (Z.of_nat (S n))) with (Z.of_nat n) by lia.
    replace (Z.succ 1) with (1 + 1) by lia.
    rewrite <- (fmap_add_seqZ 1 1), <- list_fmap_compose.
    apply list_fmap_ext. intros _ k _. cbn. rewrite s32_add_l. f_equal. lia.
Qed.

Lemma session_in_range n w :
  numberOpens (glob w) = 0 → Z.of_nat n ≤ INT_MAX →
  fst (session n w) = seqZ 1 (Z.of_nat n).
Proof.
  intros H0 Hn. rewrite session_values, H0.
  rewrite <- (list_fmap_id (seqZ 1 (Z.of_nat n))) at 2.
  apply list_fmap_ext. intros i k Hk.
  apply lookup_seqZ in Hk as [-> Hi]. cbn.
  apply s32_small. unfold INT_MAX in Hn. lia.
Qed.

(** C9. Open and release always succeed: whatever the arguments and the
    state, [dev_open] returns 0 and [dev_release] returns 0. *)
Theorem open_release_always_succeed (inodep filep : Z) (w : world) :
  fst (dev_open inodep filep w) = 0 ∧ fst (dev_release inodep filep w) = 0.
Proof. split; reflexivity. Qed.

(** C7, as the code has it.  From a state whose session counter is 0, [n]
    successive opens yield the counter values 1, 2, ..., n in order, for
    every [n] up to [INT_MAX] (the counter is an [int]); a release never
    changes the counter. *)
Theorem session_counting (n : nat) (w : world) :
  numberOpens (glob w) = 0 → Z.of_nat n ≤ INT_MAX →
  fst (session n w) = seqZ 1 (Z.of_nat n)
  ∧ ∀ inodep filep w',
      numberOpens (glob (snd (dev_release inodep filep w'))) = numberOpens (glob w').
Proof.
  intros H0 Hn. split.
  - by apply session_in_range.
  - reflexivity.
Qed.

Lemma session_counting_witness :
  numberOpens (glob (load_world 1)) = 0 ∧ Z.of_nat 3 ≤ INT_MAX
  ∧ fst (session 3 (load_world 1)) = [1; 2; 3].
Proof.
  split; [reflexivity|]. split; [vm_compute; discriminate|].
  apply (session_counting 3 (load_world 1)); [reflexivity|vm_compute; discriminate].
Defined.

(** C7 fails past [INT_MAX]: after 2^31 opens from the load state the
    counter is -2^31, and the values yielded are not 1, ..., 2^31. *)
Lemma session_counter_wraps :
  numberOpens (glob (snd (session (Z.to_nat (2 ^ 31)) (load_world 1)))) = - 2 ^ 31
  ∧ fst (session (Z.to_nat (2 ^ 31)) (load_world 1)) ≠ seqZ 1 (2 ^ 31).
Proof.
  split.
  - rewrite session_final by (split; vm_compute; [discriminate|reflexivity]).
    rewrite Z2Nat.id by (vm_compute; discriminate).
    vm_compute. reflexivity.
  - rewrite session_values, Z2Nat.id by (vm_compute; discriminate).
    intros Heq.
    assert (Hl : seqZ 1 (2 ^ 31) !! Z.to_nat (2 ^ 31 - 1) = Some (2 ^ 31)).
    { apply lookup_seqZ. lia. }
    rewrite <- Heq, list_lookup_fmap in Hl.
    destruct (seqZ 1 (2 ^ 31) !! Z.to_nat (2 ^ 31 - 1)) as [k|] eqn:Hk; [|discriminate].
    apply lookup_seqZ in Hk as [-> _].
    rewrite Z2Nat.id in Hl by lia.
    vm_compute in Hl. discriminate.
Qed.

(** ** Registration and rollback *)

Lemma IS_ERR_PTR_ERR p :
  IS_ERR p = true → - MAX_ERRNO ≤ PTR_ERR p ≤ -1 ∧ s32 (PTR_ERR p) = PTR_ERR p.
Proof.
  unfold IS_ERR, PTR_ERR. intros H%Z.leb_le.
  assert (Hc : u64 (- MAX_ERRNO) = 2 ^ 64 - 4095) by reflexivity.
  rewrite Hc in H. unfold MAX_ERRNO.
  pose proof (u64_range p) as Hp.
  rewrite s64_of_u64_high by lia.
  split; [lia|]. apply s32_small. lia.
Qed.

Lemma register_unregister name r k :
  0 ≤ r → chrdevs k !! r = None →
  do_unregister_chrdev r (do_register_chrdev 0 name r k) = k.
Proof.
  intros Hr Hfree. unfold do_register_chrdev, do_unregister_chrdev.
  destruct (Z.ltb_spec r 0); [lia|]. destruct k as [cd cl dv mi]; cbn in *.
  unfold with_chrdevs; cbn. f_equal. by apply delete_insert_id.
Qed.

Lemma register_nothing major name r k :
  r < 0 → do_register_chrdev major name r k = k.
Proof. intros Hr. unfold do_register_chrdev. by destruct (Z.ltb_spec r 0); [|lia]. Qed.

Lemma classes_register major name r k :
  classes (do_register_chrdev major name r k) = classes k.
Proof. unfold do_register_chrdev. by destruct (r <? 0). Qed.

Lemma class_add_remove (c : Z) (s : gset Z) : c ∉ s → ({[c]} ∪ s) ∖ {[c]} = s.
Proof.
  intros Hc. apply set_eq. intros x.
  rewrite elem_of_difference, elem_of_union, elem_of_singleton.
  split; [intros [[->|?] ?]; done|]. intros Hx. split; [by right|]. by intros ->.
Qed.

Lemma class_create_destroy cl c k :
  IS_ERR c = false → c ≠ NULL → c ∉ classes k →
  do_class_destroy cl c (do_class_create c k) = k.
Proof.
  intros Hok Hnn Hfresh. unfold do_class_destroy, do_class_create.
  rewrite Hok. destruct (Z.eqb_spec c NULL); [done|]. cbn [orb].
  unfold do_class_unregister. destruct k as [cd cl' dv mi]; cbn in *.
  rewrite decide_True by (apply elem_of_union_l, elem_of_singleton; reflexivity).
  unfold with_classes; cbn. f_equal. by apply class_add_remove.
Qed.

Lemma class_create_nothing c k : IS_ERR c = true → do_class_create c k = k.
Proof. intros H. unfold do_class_create. by rewrite H. Qed.

Lemma device_create_nothing cl c devt d k :
  IS_ERR d = true → do_device_create cl c devt d k = k.
Proof. intros H. unfold do_device_create. by rewrite H. Qed.

Ltac run_driver :=
  unfold bind, modify, get, put, printk, emit, register_chrdev, class_create,
    device_create, class_destroy, class_unregister, device_destroy,
    unregister_chrdev, copy_from_user, on_kernel, ret;
  cbn -[IS_ERR s32 u64 PTR_ERR MKDEV sprintf_name Z.ltb copy_bytes do_register_chrdev
        do_unregister_chrdev do_class_create do_class_destroy
        do_class_unregister do_device_create do_device_destroy].

(** The calls a function added to the trace. *)
Lemma drop_old_trace (old new : list call) : drop (length old) (old ++ new) = new.
Proof. by rewrite drop_app_length. Qed.

Lemma init_number_fails env w :
  let r := register_chrdev_ret env in
  let name := sprintf_name (id (glob w)) in
  r < 0 →
  fst (dummycdd_init env w) = r
  ∧ kern (snd (dummycdd_init env w)) = kern w
  ∧ trace (snd (dummycdd_init env w)) = trace w ++
      [Printk KERN_INFO "%s: Initializing the %s LKM\n" [PStr name; PStr name];
       RegisterChrdev 0 name r;
       Printk KERN_ALERT "%s failed to register a major number\n" [PStr name]].
Proof.
  intros r name Hr. unfold dummycdd_init. run_driver.
  fold r name. destruct (Z.ltb_spec r 0); [|lia]. cbn.
  rewrite register_nothing by done. by rewrite <- !app_assoc.
Qed.

Lemma init_class_fails env w :
  let r := register_chrdev_ret env in
  let c := class_create_ret env in
  let name := sprintf_name (id (glob w)) in
  0 ≤ r → chrdevs (kern w) !! r = None → IS_ERR c = true →
  fst (dummycdd_init env w) = s32 (PTR_ERR c)
  ∧ kern (snd (dummycdd_init env w)) = kern w
  ∧ trace (snd (dummycdd_init env w)) = trace w ++
      [Printk KERN_INFO "%s: Initializing the %s LKM\n" [PStr name; PStr name];
       RegisterChrdev 0 name r;
       Printk KERN_INFO "%s: registered correctly with major number %d\n"
         [PStr name; PInt r];
       ClassCreate CLASS_NAME c;
       UnregisterChrdev r name;
       Printk KERN_ALERT "%s: Failed to register device class\n" [PStr name]].
Proof.
  intros r c name Hr Hfree Hc. unfold dummycdd_init. run_driver.
  fold r c name. destruct (Z.ltb_spec r 0); [lia|]. rewrite Hc. cbn.
  rewrite class_create_nothing, register_unregister by done.
  by rewrite <- !app_assoc.
Qed.

Lemma init_device_fails env w :
  let r := register_chrdev_ret env in
  let c := class_create_ret env in
  let d := device_create_ret env in
  let name := sprintf_name (id (glob w)) in
  0 ≤ r → chrdevs (kern w) !! r = None →
  IS_ERR c = false → c ≠ NULL → c ∉ classes (kern w) →
  IS_ERR d = true →
  fst (dummycdd_init env w) = s32 (PTR_ERR d)
  ∧ kern (snd (dummycdd_init env w)) = kern w
  ∧ trace (snd (dummycdd_init env w)) = trace w ++
      [Printk KERN_INFO "%s: Initializing the %s LKM\n" [PStr name; PStr name];
       RegisterChrdev 0 name r;
       Printk KERN_INFO "%s: registered correctly with major number %d\n"
         [PStr name; PInt r];
       ClassCreate CLASS_NAME c;
       Printk KERN_INFO "%s: device class registered correctly\n" [PStr name];
       DeviceCreate c (MKDEV r 0) name d;
       ClassDestroy c;
       UnregisterChrdev r name;
       Printk KERN_ALERT "%s: Failed to create the device\n" [PStr name]].
Proof.
  intros r c d name Hr Hfree Hc Hnn Hfresh Hd. unfold dummycdd_init. run_driver.
  fold r c d name. destruct (Z.ltb_spec r 0); [lia|]. rewrite Hc, Hd. cbn.
  rewrite device_create_nothing by done.
  rewrite class_create_destroy by (by rewrite ?classes_register).
  rewrite register_unregister by done.
  by rewrite <- !app_assoc.
Qed.

(** C3. When the device-node creation (step 3) fails, initialization first
    releases the class of step 2 ([class_destroy]) and then the device
    number of step 1 ([unregister_chrdev]), and returns the error of the
    failed creation, a negative errno; the kernel's registration state is
    what it was before the call. *)
Theorem init_device_failure_rolls_back (env : answers) (w : world) :
  let r := register_chrdev_ret env in
  let c := class_create_ret env in
  let d := device_create_ret env in
  let name := sprintf_name (id (glob w)) in
  0 ≤ r → chrdevs (kern w) !! r = None →
  IS_ERR c = false → c ≠ NULL → c ∉ classes (kern w) →
  IS_ERR d = true →
  fst (dummycdd_init env w) = PTR_ERR d
  ∧ - MAX_ERRNO ≤ fst (dummycdd_init env w) ≤ -1
  ∧ api_calls (drop (length (trace w)) (trace (snd (dummycdd_init env w)))) =
      [RegisterChrdev 0 name r; ClassCreate CLASS_NAME c;
       DeviceCreate c (MKDEV r 0) name d;
       ClassDestroy c; UnregisterChrdev r name]
  ∧ kern (snd (dummycdd_init env w)) = kern w.
Proof.
  intros r c d name Hr Hfree Hc Hnn Hfresh Hd.
  destruct (init_device_fails env w) as (Hret & Hk & Ht); try done.
  destruct (IS_ERR_PTR_ERR d Hd) as [Hrange Hs32].
  fold d in Hret. rewrite Hret, Hs32, Hk, Ht, drop_old_trace.
  repeat split; try done; lia.
Qed.

Lemma init_device_failure_rolls_back_witness :
  let env := {| register_chrdev_ret := 240;
                class_create_ret := 0xffff888004a1c000;
                device_create_ret := u64 (-12) |} in
  IS_ERR (class_create_ret env) = false
  ∧ IS_ERR (device_create_ret env) = true
  ∧ fst (dummycdd_init env (load_world 1)) = -12
  ∧ kern (snd (dummycdd_init env (load_world 1))) = kern (load_world 1).
Proof.
  intros env.
  assert (Hc : IS_ERR (class_create_ret env) = false) by (vm_compute; reflexivity).
  assert (Hd : IS_ERR (device_create_ret env) = true) by (vm_compute; reflexivity).
  destruct (init_device_failure_rolls_back env (load_world 1))
    as (Hret & _ & _ & Hk).
  - cbn; lia.
  - apply lookup_empty.
  - exact Hc.
  - cbn; discriminate.
  - apply not_elem_of_empty.
  - exact Hd.
  - split; [exact Hc|]. split; [exact Hd|]. split; [|exact Hk].
    rewrite Hret. vm_compute. reflexivity.
Defined.

(** C4. When the class creation (step 2) fails, initialization releases the
    device number of step 1 and returns the error of the failed creation;
    nothing else was acquired (no [device_create] call is made).  When the
    number allocation (step 1) itself fails, initialization returns its
    error at once, having made no other driver-model call.  Either way the
    kernel's registration state is what it was before the call. *)
Theorem init_early_failure_rolls_back (env : answers) (w : world) :
  let r := register_chrdev_ret env in
  let c := class_create_ret env in
  let name := sprintf_name (id (glob w)) in
  (0 ≤ r → chrdevs (kern w) !! r = None) →
  r < 0 ∨ IS_ERR c = true →
  fst (dummycdd_init env w) = (if r <? 0 then r else PTR_ERR c)
  ∧ fst (dummycdd_init env w) < 0
  ∧ api_calls (drop (length (trace w)) (trace (snd (dummycdd_init env w)))) =
      (if r <? 0 then [RegisterChrdev 0 name r]
       else [RegisterChrdev 0 name r; ClassCreate CLASS_NAME c;
             UnregisterChrdev r name])
  ∧ kern (snd (dummycdd_init env w)) = kern w.
Proof.
  intros r c name Hfree Hfail.
  destruct (Z.ltb_spec r 0) as [Hneg|Hpos].
  - destruct (init_number_fails env w Hneg) as (Hret & Hk & Ht).
    rewrite Hret, Hk, Ht, drop_old_trace. by fold r.
  - destruct Hfail as [?|Hc]; [lia|].
    destruct (init_class_fails env w) as (Hret & Hk & Ht); auto.
    destruct (IS_ERR_PTR_ERR c Hc) as [Hrange Hs32].
    fold c in Hret. rewrite Hret, Hs32, Hk, Ht, drop_old_trace.
    unfold MAX_ERRNO in Hrange. repeat split; try done; lia.
Qed.

Lemma init_early_failure_rolls_back_witness :
  let e1 := {| register_chrdev_ret := -16; class_create_ret := NULL;
               device_create_ret := NULL |} in
  let e2 := {| register_chrdev_ret := 240; class_create_ret := u64 (-12);
               device_create_ret := NULL |} in
  (fst (dummycdd_init e1 (load_world 1)) = -16
   ∧ kern (snd (dummycdd_init e1 (load_world 1))) = kern (load_world 1))
  ∧ (fst (dummycdd_init e2 (load_world 1)) = -12
     ∧ kern (snd (dummycdd_init e2 (load_world 1))) = kern (load_world 1)).
Proof.
  intros e1 e2. split.
  - destruct (init_early_failure_rolls_back e1 (load_world 1))
      as (Hret & _ & _ & Hk).
    + intros _. apply lookup_empty.
    + left. cbn. lia.
    + split; [|exact Hk]. rewrite Hret. reflexivity.
  - destruct (init_early_failure_rolls_back e2 (load_world 1))
      as (Hret & _ & _ & Hk).
    + intros _. apply lookup_empty.
    + right. vm_compute. reflexivity.
    + split; [|exact Hk]. rewrite Hret. vm_compute. reflexivity.
Defined.

(** ** The write path *)

Lemma u64_add_s64 a b : u64 (a + s64 b) = u64 (a + b).
Proof.
  unfold u64. rewrite <- Zplus_mod_idemp_r. fold (u64 (s64 b)).
  rewrite u64_s64. unfold u64. by rewrite Zplus_mod_idemp_r.
Qed.

Lemma dev_write_body_spec u buffer len i w :
  let a := u64 (buffer + i) in
  let n := copy_len len (u64 i) in
  len - u64 i = u64 (len - u64 i) →
  snd (dev_write_body u buffer len i w) =
  {| glob := set_message (copy_bytes u (message (glob w)) a n).1 (glob w);
     kern := kern w;
     trace := trace w ++
       [CopyFromUser a n (copy_bytes u (message (glob w)) a n).2;
        Printk KERN_INFO "%s" [PBuf (copy_bytes u (message (glob w)) a n).1]] |}.
Proof.
  intros a n Hrem. unfold dev_write_body, n, copy_len. rewrite <- Hrem.
  destruct (sizeof_message <? len - u64 i); run_driver;
    destruct (copy_bytes _ _ _ _) as [m res]; cbn; by rewrite <- app_assoc.
Qed.

Lemma dev_write_loop_done fuel u buffer len i w :
  len ≤ u64 i → dev_write_loop fuel u buffer len i w = Some w.
Proof.
  intros H. destruct fuel; cbn [dev_write_loop];
    by destruct (Z.ltb_spec (u64 i) len); [lia|].
Qed.

Lemma dev_write_loop_step fuel u buffer len i w :
  u64 i < len →
  dev_write_loop (S fuel) u buffer len i w =
  dev_write_loop fuel u buffer len (s64 (u64 i + sizeof_message))
    (snd (dev_write_body u buffer len i w)).
Proof.
  intros H. cbn [dev_write_loop]. by destruct (Z.ltb_spec (u64 i) len); [|lia].
Qed.

Lemma chunk_count_bounds len :
  let k := chunk_count len in
  sizeof_message * k < len + sizeof_message ∧ len ≤ sizeof_message * k.
Proof.
  unfold chunk_count, sizeof_message. cbn zeta.
  replace (256 - 1) with 255 by lia.
  pose proof (Z.div_mod (len + 255) 256 ltac:(lia)).
  pose proof (Z.mod_pos_bound (len + 255) 256 ltac:(lia)). lia.
Qed.

Lemma dev_write_loop_run u buffer len (k : nat) : ∀ j fuel w,
  0 ≤ j → len ≤ 2 ^ 64 - sizeof_message →
  sizeof_message * (j + Z.of_nat k) < len + sizeof_message →
  len ≤ sizeof_message * (j + Z.of_nat k) →
  (k ≤ fuel)%nat →
  dev_write_loop fuel u buffer len (s64 (sizeof_message * j)) w =
  Some {| glob := set_message
                    (chunk_events u (chunk_at buffer len <$> seqZ j (Z.of_nat k))
                       (message (glob w))).2 (glob w);
          kern := kern w;
          trace := trace w ++
                   (chunk_events u (chunk_at buffer len <$> seqZ j (Z.of_nat k))
                      (message (glob w))).1 |}.
Proof.
  induction k as [|k IH]; intros j fuel w Hj Hlen Hlo Hhi Hfuel;
    unfold sizeof_message in *.
  - rewrite dev_write_loop_done.
    + cbn. rewrite app_nil_r. by destruct w as [[] ? ?].
    + rewrite u64_s64, u64_small; lia.
  - destruct fuel as [|fuel]; [lia|].
    assert (Hi : u64 (s64 (256 * j)) = 256 * j) by (rewrite u64_s64, u64_small; lia).
    rewrite dev_write_loop_step by (rewrite Hi; lia).
    rewrite dev_write_body_spec by (rewrite Hi, u64_small; lia).
    rewrite Hi, u64_add_s64. unfold sizeof_message.
    replace (256 * j + 256) with (256 * (j + 1)) by lia.
    rewrite (IH (j + 1)) by (cbn [trace glob kern]; lia).
    rewrite (seqZ_cons j (Z.of_nat (S k))) by lia.
    replace (Z.pred (Z.of_nat (S k))) with (Z.of_nat k) by lia.
    replace (Z.succ j) with (j + 1) by lia.
    rewrite fmap_cons. cbn [chunk_events glob kern trace message set_message].
    unfold chunk_at at 2 3 4 5. cbn [fst snd]. unfold sizeof_message.
    destruct (chunk_events _ _ _) as [evs m'] eqn:E. cbn [fst snd].
    by rewrite <- app_assoc.
Qed.

Lemma dev_write_run fuel u filep buffer len offset w :
  0 ≤ len ≤ 2 ^ 64 - sizeof_message →
  chunk_count len ≤ Z.of_nat fuel →
  dev_write fuel u filep buffer len offset w =
  Some (s64 len,
        {| glob := set_message
                     (chunk_events u (chunk_plan buffer len) (message (glob w))).2
                     (glob w);
           kern := kern w;
           trace := trace w ++ write_header w len ::
                    (chunk_events u (chunk_plan buffer len) (message (glob w))).1 |}).
Proof.
  intros Hlen Hfuel. unfold dev_write. cbn zeta.
  pose proof (chunk_count_bounds len) as [Hlo Hhi].
  assert (Hk : 0 ≤ chunk_count len).
  { unfold chunk_count, sizeof_message. apply Z.div_pos; lia. }
  change 0 with (s64 (sizeof_message * 0)) at 1.
  rewrite (dev_write_loop_run u buffer len (Z.to_nat (chunk_count len)))
    by (rewrite ?Z2Nat.id by done; lia).
  rewrite Z2Nat.id by done. fold (chunk_plan buffer len).
  unfold printk, emit, write_header. cbn [snd glob kern trace].
  by rewrite <- app_assoc.
Qed.

(** *** [copy_from_user] on the holding buffer *)

Lemma raw_copy_length u n : ∀ from, (length (raw_copy_from_user u from n) ≤ n)%nat.
Proof.
  induction n as [|n IH]; intros from; cbn; [lia|].
  destruct (u (u64 from)); cbn; [specialize (IH (from + 1))|]; lia.
Qed.

Lemma raw_copy_readable u src : ∀ from,
  readable u from src →
  raw_copy_from_user u from (length src) = src.
Proof.
  induction src as [|b src IH]; intros from Hr; [done|].
  cbn [length raw_copy_from_user].
  rewrite <- (Z.add_0_r from) at 1. change 0 with (Z.of_nat 0).
  rewrite (Hr 0%nat b) by done. f_equal. apply IH.
  intros j c Hj. replace (from + 1 + Z.of_nat j) with (from + Z.of_nat (S j)) by lia.
  by apply Hr.
Qed.

(** The first [n] bytes of the result are the bytes read, padded with zeros;
    the rest of the destination is as it was. *)
Lemma copy_bytes_split u to from n :
  0 ≤ n →
  let m := (copy_bytes u to from n).1 in
  length (take (Z.to_nat n) m) = Z.to_nat n
  ∧ m = take (Z.to_nat n) m ++ drop (Z.to_nat n) to.
Proof.
  intros Hn. unfold copy_bytes. cbn [fst].
  pose proof (raw_copy_length u (Z.to_nat n) from) as Hgot.
  set (got := raw_copy_from_user u from (Z.to_nat n)) in *.
  rewrite app_assoc.
  assert (Hl : length (got ++ replicate (Z.to_nat (n - Z.of_nat (length got))) x00)
               = Z.to_nat n).
  { rewrite length_app, length_replicate. lia. }
  rewrite take_app_length' by done. by rewrite Hl.
Qed.

Lemma copy_bytes_tail u to from n (j : nat) :
  0 ≤ n → (Z.to_nat n ≤ j)%nat →
  (copy_bytes u to from n).1 !! j = to !! j.
Proof.
  intros Hn Hj. destruct (copy_bytes_split u to from n Hn) as [Hl Hm].
  rewrite Hm, lookup_app_r by lia. rewrite Hl, lookup_drop. f_equal. lia.
Qed.

Lemma copy_bytes_length u to from n :
  0 ≤ n ≤ Z.of_nat (length to) →
  length (copy_bytes u to from n).1 = length to.
Proof.
  intros Hn. destruct (copy_bytes_split u to from n) as [Hl Hm]; [lia|].
  rewrite Hm, length_app, Hl, length_drop. lia.
Qed.

(** A copy that succeeds: the source bytes replace the front of the buffer,
    and nothing is left uncopied. *)
Lemma copy_bytes_readable u to from src :
  readable u from src →
  copy_bytes u to from (Z.of_nat (length src)) = (src ++ drop (length src) to, 0).
Proof.
  intros Hr. unfold copy_bytes. rewrite Nat2Z.id, raw_copy_readable by done.
  rewrite Z.sub_diag. done.
Qed.

Lemma readable_drop u buffer src (k : nat) :
  readable u buffer src → readable u (u64 (buffer + Z.of_nat k)) (drop k src).
Proof.
  intros Hr j b Hj. rewrite lookup_drop in Hj.
  rewrite u64_add_l. replace (buffer + Z.of_nat k + Z.of_nat j)
    with (buffer + Z.of_nat (k + j)) by lia.
  by apply Hr.
Qed.

Lemma readable_take u buffer src (k : nat) :
  readable u buffer src → readable u buffer (take k src).
Proof.
  intros Hr j b Hj. apply Hr. by apply lookup_take_Some in Hj as [? _].
Qed.

(** C10. A write of length 0 runs the loop body zero times, whatever the
    fuel: no [copy_from_user], no chunk, the holding buffer (and the rest of
    the driver's and the kernel's state) unchanged; only the header line is
    logged, and the call returns 0. *)
Theorem write_zero_length (fuel : nat) (u : user_space)
    (filep buffer offset : Z) (w : world) :
  dev_write fuel u filep buffer 0 offset w =
    Some (0, {| glob := glob w; kern := kern w;
                trace := trace w ++ [write_header w 0] |})
  ∧ copies [write_header w 0] = []
  ∧ chunks [write_header w 0] = [].
Proof.
  split; [|done]. unfold dev_write. cbn zeta.
  by rewrite dev_write_loop_done.
Qed.

(** C2. For every length a write call can carry, whatever the caller's
    memory holds (so whether the copies succeed or fault), a write that is
    given enough fuel for its [chunk_count len] passes returns exactly
    [len]: never an error, never a short count.  The lengths a write call
    carries are those up to [SSIZE_MAX]: [dev_write] is static and is
    reached only as [fops.write], to which the kernel passes no count that
    is negative as an [ssize_t] (it passes at most [MAX_RW_COUNT], which is
    below [INT_MAX]). *)
Theorem write_returns_length (fuel : nat) (u : user_space)
    (filep buffer len offset : Z) (w : world) :
  0 ≤ len ≤ SSIZE_MAX →
  chunk_count len ≤ Z.of_nat fuel →
  ∃ w', dev_write fuel u filep buffer len offset w = Some (len, w').
Proof.
  intros Hlen Hfuel. unfold SSIZE_MAX in Hlen.
  rewrite dev_write_run by (unfold sizeof_message; lia).
  rewrite s64_small by lia. eauto.
Qed.

Lemma write_returns_length_witness :
  0 ≤ 300 ≤ SSIZE_MAX ∧ chunk_count 300 ≤ Z.of_nat 2
  ∧ ∃ w', dev_write 2 (λ _, None) 0 0 300 0 (load_world 1) = Some (300, w').
Proof.
  split; [vm_compute; split; discriminate|].
  split; [vm_compute; discriminate|].
  apply (write_returns_length 2 (λ _, None) 0 0 300 0 (load_world 1)).
  - vm_compute; split; discriminate.
  - vm_compute; discriminate.
Defined.

(** Past [SSIZE_MAX], a length that no write call carries, the conversion
    of the result shows: called with 2^63, the function ends after 2^55
    passes and returns -2^63. *)
Lemma write_length_overflows :
  ∃ w', dev_write (Z.to_nat (2 ^ 55)) (λ _, None) 0 0 (2 ^ 63) 0 (load_world 1)
        = Some (- 2 ^ 63, w')
  ∧ - 2 ^ 63 ≠ 2 ^ 63.
Proof.
  rewrite dev_write_run.
  - eexists. split; [|discriminate]. f_equal.
  - vm_compute. split; discriminate.
  - rewrite Z2Nat.id by (vm_compute; discriminate). vm_compute. discriminate.
Qed.

(** *** The unrolled loop *)

Lemma chunk_events_app u cs1 : ∀ cs2 m,
  chunk_events u (cs1 ++ cs2) m =
  ((chunk_events u cs1 m).1 ++ (chunk_events u cs2 (chunk_events u cs1 m).2).1,
   (chunk_events u cs2 (chunk_events u cs1 m).2).2).
Proof.
  induction cs1 as [|c cs1 IH]; intros cs2 m.
  - cbn. by destruct (chunk_events u cs2 m).
  - cbn [app chunk_events]. rewrite IH.
    destruct (chunk_events u cs1 _) as [e1 m1]. cbn [fst snd].
    by destruct (chunk_events u cs2 m1).
Qed.

Lemma chunk_events_last u cs : ∀ m,
  last (m :: chunks (chunk_events u cs m).1) = Some (chunk_events u cs m).2.
Proof.
  induction cs as [|c cs IH]; intros m; [done|].
  cbn [chunk_events]. specialize (IH (copy_bytes u m c.1 c.2).1).
  destruct (chunk_events u cs _) as [evs m']. cbn [fst snd] in *.
  by rewrite <- IH.
Qed.

Lemma chunk_events_copies u cs : ∀ m, copies (chunk_events u cs m).1 = cs.
Proof.
  induction cs as [|[a n] cs IH]; intros m; [done|].
  cbn [chunk_events]. specialize (IH (copy_bytes u m a n).1).
  destruct (chunk_events u cs _) as [evs m']. cbn [fst snd] in *.
  unfold copies in *. cbn. by rewrite IH.
Qed.

Lemma chunks_copy_emit a n res b tr :
  chunks (CopyFromUser a n res :: Printk KERN_INFO "%s" [PBuf b] :: tr) = b :: chunks tr.
Proof. reflexivity. Qed.

Lemma chunk_events_chunks u cs : ∀ m,
  length (chunks (chunk_events u cs m).1) = length cs.
Proof.
  induction cs as [|c cs IH]; intros m; [done|].
  cbn [chunk_events]. specialize (IH (copy_bytes u m c.1 c.2).1).
  destruct (chunk_events u cs _) as [evs m']. cbn [fst snd] in *.
  rewrite chunks_copy_emit. cbn [length]. by rewrite IH.
Qed.

Lemma chunk_events_length u cs : ∀ m,
  Forall (λ c : Z * Z, 0 ≤ c.2 ≤ Z.of_nat (length m)) cs →
  length (chunk_events u cs m).2 = length m.
Proof.
  induction cs as [|c cs IH]; intros m Hcs; [done|].
  apply Forall_cons in Hcs as [Hc Hcs].
  cbn [chunk_events].
  specialize (IH (copy_bytes u m c.1 c.2).1).
  destruct (chunk_events u cs _) as [evs m']. cbn [fst snd] in *.
  rewrite IH; rewrite copy_bytes_length; done.
Qed.

Lemma copy_len_range len off :
  off < len → 0 < copy_len len off ≤ sizeof_message.
Proof.
  intros H. unfold copy_len, sizeof_message.
  destruct (Z.ltb_spec 256 (len - off)); lia.
Qed.

Lemma chunk_plan_bounded buffer len :
  Forall (λ c : Z * Z, 0 ≤ c.2 ≤ sizeof_message) (chunk_plan buffer len).
Proof.
  unfold chunk_plan. rewrite Forall_fmap. apply Forall_seqZ. intros t Ht. cbn.
  pose proof (chunk_count_bounds len) as [Hlo _].
  pose proof (copy_len_range len (sizeof_message * t)) as Hc.
  unfold sizeof_message in *. lia.
Qed.

(** With a short last chunk of [r] bytes, the plan ends in a request for
    exactly [r] bytes at offset [len - r]. *)
Lemma chunk_plan_short buffer len :
  let r := len mod sizeof_message in
  0 ≤ len → 0 < r →
  chunk_plan buffer len =
  (chunk_at buffer len <$> seqZ 0 (len / sizeof_message))
  ++ [(u64 (buffer + (len - r)), r)].
Proof.
  intros r Hlen Hr. unfold chunk_plan, chunk_count.
  pose proof (Z.div_mod len sizeof_message ltac:(done)) as Hdm.
  pose proof (Z.mod_pos_bound len sizeof_message ltac:(done)) as Hmod.
  fold r in Hdm, Hmod.
  assert (Hq : 0 ≤ len / sizeof_message) by (apply Z.div_pos; [lia|done]).
  set (q := len / sizeof_message) in *.
  assert (Hcount : (len + (sizeof_message - 1)) / sizeof_message = q + 1).
  { symmetry. apply (Z.div_unique _ _ _ (r - 1)); unfold sizeof_message in *; lia. }
  rewrite Hcount, seqZ_app, fmap_app by lia. f_equal.
  rewrite (seqZ_cons (0 + q) 1), seqZ_nil by lia. cbn [fmap list_fmap].
  unfold chunk_at, copy_len. repeat f_equal.
  - unfold sizeof_message in *. lia.
  - destruct (Z.ltb_spec sizeof_message (len - sizeof_message * (0 + q)));
      unfold sizeof_message in *; lia.
Qed.

Lemma chunk_plan_two_and_five buffer :
  let C := sizeof_message in
  chunk_plan buffer (2 * C + 5) =
  [(u64 buffer, C); (u64 (buffer + C), C); (u64 (buffer + 2 * C), 5)].
Proof.
  cbn zeta. unfold chunk_plan.
  change (seqZ 0 (chunk_count (2 * sizeof_message + 5))) with [0; 1; 2].
  cbn [fmap list_fmap]. unfold chunk_at.
  rewrite Z.mul_0_r, Z.add_0_r, Z.mul_1_r, (Z.mul_comm sizeof_message 2).
  reflexivity.
Qed.

(** C1. A write of [2C + 5] bytes, [C = sizeof(message)], makes exactly
    three passes: it copies [C] bytes from source offset 0 and emits the
    buffer, copies [C] bytes from offset [C] and emits, copies the remaining
    5 bytes from offset [2C] and emits; it returns [2C + 5].  This holds for
    whatever the caller's memory and the buffer held. *)
Theorem write_two_full_chunks_and_five (fuel : nat) (u : user_space)
    (filep buffer offset : Z) (w : world) :
  let C := sizeof_message in
  let c1 := copy_bytes u (message (glob w)) (u64 buffer) C in
  let c2 := copy_bytes u c1.1 (u64 (buffer + C)) C in
  let c3 := copy_bytes u c2.1 (u64 (buffer + 2 * C)) 5 in
  (3 ≤ fuel)%nat →
  dev_write fuel u filep buffer (2 * C + 5) offset w =
  Some (2 * C + 5,
        {| glob := set_message c3.1 (glob w);
           kern := kern w;
           trace := trace w ++
             [write_header w (2 * C + 5);
              CopyFromUser (u64 buffer) C c1.2;
              Printk KERN_INFO "%s" [PBuf c1.1];
              CopyFromUser (u64 (buffer + C)) C c2.2;
              Printk KERN_INFO "%s" [PBuf c2.1];
              CopyFromUser (u64 (buffer + 2 * C)) 5 c3.2;
              Printk KERN_INFO "%s" [PBuf c3.1]] |}).
Proof.
  intros C c1 c2 c3 Hfuel.
  rewrite dev_write_run.
  - unfold C. rewrite chunk_plan_two_and_five. reflexivity.
  - vm_compute. split; discriminate.
  - change (chunk_count (2 * C + 5)) with 3. lia.
Qed.

Lemma write_two_full_chunks_and_five_witness :
  (3 ≤ 3)%nat
  ∧ ∃ w', dev_write 3 (λ _, Some "a"%byte) 0 4096 517 0 (load_world 1) = Some (517, w')
          ∧ copies (trace w') = [(4096, 256); (4352, 256); (4608, 5)]
          ∧ length (chunks (trace w')) = 3%nat.
Proof.
  split; [lia|]. eexists. split.
  - apply (write_two_full_chunks_and_five 3 (λ _, Some "a"%byte) 0 4096 0 (load_world 1)).
    lia.
  - split; vm_compute; reflexivity.
Defined.

(** C6. When the last chunk of a write is short ([r = len mod C] with
    [0 < r]), the last copy asks for [r] bytes only: the buffer it leaves
    agrees from offset [r] on with the buffer [m_prev] it found, which is
    the previous chunk emitted by this write or, if there is none, what an
    earlier write left; and what the last [printk] is handed is that whole
    buffer, all [C] bytes of it, stale tail included. *)
Theorem short_final_chunk_keeps_stale_tail (fuel : nat) (u : user_space)
    (filep buffer len offset : Z) (w : world) :
  let r := len mod sizeof_message in
  0 ≤ len ≤ 2 ^ 64 - sizeof_message → 0 < r →
  chunk_count len ≤ Z.of_nat fuel →
  Z.of_nat (length (message (glob w))) = sizeof_message →
  ∃ w' evs m_prev res,
    dev_write fuel u filep buffer len offset w = Some (s64 len, w')
    ∧ trace w' = trace w ++ write_header w len :: evs ++
        [CopyFromUser (u64 (buffer + (len - r))) r res;
         Printk KERN_INFO "%s" [PBuf (message (glob w'))]]
    ∧ last (message (glob w) :: chunks evs) = Some m_prev
    ∧ message (glob w') = (copy_bytes u m_prev (u64 (buffer + (len - r))) r).1
    ∧ Z.of_nat (length (message (glob w'))) = sizeof_message
    ∧ ∀ j : nat, r ≤ Z.of_nat j → message (glob w') !! j = m_prev !! j.
Proof.
  intros r Hlen Hr Hfuel Hm.
  pose proof (chunk_plan_bounded buffer len) as Hb.
  rewrite dev_write_run by done.
  rewrite chunk_plan_short in * by (fold r; lia). fold r in Hb |- *.
  apply Forall_app in Hb as [Hb _].
  set (pre := chunk_at buffer len <$> seqZ 0 (len / sizeof_message)) in *.
  rewrite chunk_events_app. cbn [fst snd chunk_events].
  set (m_prev := (chunk_events u pre (message (glob w))).2).
  set (c := copy_bytes u m_prev (u64 (buffer + (len - r))) r).
  exists {| glob := set_message c.1 (glob w); kern := kern w;
            trace := trace w ++ write_header w len ::
                     (chunk_events u pre (message (glob w))).1 ++
                     [CopyFromUser (u64 (buffer + (len - r))) r c.2;
                      Printk KERN_INFO "%s" [PBuf c.1]] |},
    (chunk_events u pre (message (glob w))).1, m_prev, c.2.
  assert (Hprev : length m_prev = length (message (glob w))).
  { apply chunk_events_length. eapply Forall_impl; [exact Hb|]. cbn. lia. }
  pose proof (Z.mod_pos_bound len sizeof_message ltac:(done)) as Hmod. fold r in Hmod.
  split; [done|]. split; [done|]. split; [apply chunk_events_last|].
  split; [done|]. cbn [glob message set_message]. split.
  - unfold c. rewrite copy_bytes_length; lia.
  - intros j Hj. apply copy_bytes_tail; lia.
Qed.

Lemma short_final_chunk_keeps_stale_tail_witness :
  let u : user_space := λ _, Some "b"%byte in
  let w := {| glob := set_message (replicate 256 "a"%byte) (load_globals 1);
              kern := boot_kernel; trace := [] |} in
  0 < 3 mod sizeof_message
  ∧ ∃ w' evs m_prev res,
      dev_write 1 u 0 0 3 0 w = Some (s64 3, w')
      ∧ trace w' = trace w ++ write_header w 3 :: evs ++
          [CopyFromUser (u64 (0 + (3 - 3 mod sizeof_message))) (3 mod sizeof_message) res;
           Printk KERN_INFO "%s" [PBuf (message (glob w'))]]
      ∧ last (message (glob w) :: chunks evs) = Some m_prev
      ∧ message (glob w') =
          (copy_bytes u m_prev (u64 (0 + (3 - 3 mod sizeof_message)))
             (3 mod sizeof_message)).1
      ∧ Z.of_nat (length (message (glob w'))) = sizeof_message
      ∧ ∀ j : nat, 3 mod sizeof_message ≤ Z.of_nat j →
          message (glob w') !! j = m_prev !! j.
Proof.
  intros u w. split; [vm_compute; reflexivity|].
  apply (short_final_chunk_keeps_stale_tail 1 u 0 0 3 0 w).
  - vm_compute. split; discriminate.
  - vm_compute. reflexivity.
  - vm_compute. discriminate.
  - vm_compute. reflexivity.
Defined.

(** A short write after a longer one: ten bytes ['a'], then three bytes
    ['b'].  The chunk of the second write is the whole buffer, whose bytes
    3 to 9 are still the ['a']s of the first, and the text logged for it is
    ten characters long. *)
Example stale_tail_after_short_write :
  let ua : user_space := λ _, Some "a"%byte in
  let ub : user_space := λ _, Some "b"%byte in
  ∃ w1 w2,
    dev_write 1 ua 0 0 10 0 (load_world 1) = Some (10, w1)
    ∧ dev_write 1 ub 0 0 3 0 w1 = Some (3, w2)
    ∧ last (chunks (trace w2)) =
        Some (replicate 3 "b"%byte ++ replicate 7 "a"%byte ++ replicate 246 x00)
    ∧ last (chunks (trace w2)) ≫= c_string =
        Some (replicate 3 "b"%byte ++ replicate 7 "a"%byte).
Proof. intros ua ub. do 2 eexists. repeat split; vm_compute; reflexivity. Qed.

(** *** What a write leaves alone *)

Lemma dev_write_body_frame u buffer len i w :
  let w' := snd (dev_write_body u buffer len i w) in
  glob w' = set_message (message (glob w')) (glob w) ∧ kern w' = kern w.
Proof.
  unfold dev_write_body.
  destruct (sizeof_message <? u64 (len - u64 i)); run_driver;
    by destruct (copy_bytes _ _ _ _).
Qed.

Lemma dev_write_loop_frame u buffer len fuel : ∀ i w w',
  dev_write_loop fuel u buffer len i w = Some w' →
  glob w' = set_message (message (glob w')) (glob w) ∧ kern w' = kern w.
Proof.
  induction fuel as [|fuel IH]; intros i w w'; cbn [dev_write_loop];
    destruct (u64 i <? len); try discriminate.
  - intros [= <-]. by destruct w as [[] ? ?].
  - intros H%IH. destruct (dev_write_body_frame u buffer len i w) as [Hg Hk].
    destruct H as [Hg' Hk']. rewrite Hk', Hk. split; [|done].
    rewrite Hg', Hg. done.
  - intros [= <-]. by destruct w as [[] ? ?].
Qed.

Lemma dev_write_frame fuel u filep buffer len offset w r w' :
  dev_write fuel u filep buffer len offset w = Some (r, w') →
  glob w' = set_message (message (glob w')) (glob w) ∧ kern w' = kern w.
Proof.
  unfold dev_write. cbn zeta.
  destruct (dev_write_loop _ _ _ _ _ _) as [w1|] eqn:E; [|discriminate].
  intros [= _ <-]. by apply dev_write_loop_frame in E.
Qed.

(** ** The device name *)

Lemma init_device_name env w :
  device_name (glob (snd (dummycdd_init env w))) = sprintf_name (id (glob w)).
Proof.
  unfold dummycdd_init. run_driver.
  destruct (register_chrdev_ret env <? 0); [done|].
  destruct (IS_ERR (class_create_ret env)); [done|].
  by destruct (IS_ERR (device_create_ret env)).
Qed.

(** C8. [dummycdd_init] sets the device name to the base name followed by
    the decimal rendering of [id]: ["dummycdd1"] for [id = 1] and
    ["dummycdd42"] for [id = 42], on every path through the function; and
    no other function of the driver changes it. *)
Theorem device_name_derivation :
  (∀ env w, device_name (glob (snd (dummycdd_init env w)))
            = DEVICE_NAME +:+ pretty (id (glob w)))
  ∧ (∀ env, device_name (glob (snd (dummycdd_init env (load_world 1)))) = "dummycdd1")
  ∧ (∀ env, device_name (glob (snd (dummycdd_init env (load_world 42)))) = "dummycdd42")
  ∧ (∀ inodep filep w,
       device_name (glob (snd (dev_open inodep filep w))) = device_name (glob w))
  ∧ (∀ inodep filep w,
       device_name (glob (snd (dev_release inodep filep w))) = device_name (glob w))
  ∧ (∀ fuel u filep buffer len offset w,
       match dev_write fuel u filep buffer len offset w with
       | Some (_, w') => device_name (glob w') = device_name (glob w)
       | None => True
       end)
  ∧ (∀ w, device_name (glob (snd (dummycdd_exit w))) = device_name (glob w)).
Proof.
  split; [apply init_device_name|].
  split; [intros env; by rewrite init_device_name|].
  split; [intros env; by rewrite init_device_name|].
  split; [done|]. split; [done|]. split; [|done].
  intros fuel u filep buffer len offset w.
  destruct (dev_write _ _ _ _ _ _ _) as [[r w']|] eqn:E; [|done].
  apply dev_write_frame in E as [-> _]. done.
Qed.

(** ** Teardown *)

Lemma exit_trace w :
  let g := glob w in
  trace (snd (dummycdd_exit w)) = trace w ++
    [DeviceDestroy (dummyClass g) (MKDEV (majorNumber g) 0);
     ClassUnregister (dummyClass g);
     ClassDestroy (dummyClass g);
     UnregisterChrdev (majorNumber g) (device_name g);
     Printk KERN_INFO "%s: Goodbye from the LKM!\n" [PStr (device_name g)]].
Proof. unfold dummycdd_exit. run_driver. by rewrite <- !app_assoc. Qed.

Lemma init_succeeds env w :
  let r := register_chrdev_ret env in
  let c := class_create_ret env in
  let d := device_create_ret env in
  let name := sprintf_name (id (glob w)) in
  0 ≤ r → IS_ERR c = false → IS_ERR d = false →
  fst (dummycdd_init env w) = 0
  ∧ glob (snd (dummycdd_init env w)) =
      set_dummyDevice d (set_dummyClass c (set_majorNumber r
        (set_device_name name (glob w))))
  ∧ kern (snd (dummycdd_init env w)) =
      with_devices (insert (c, MKDEV r 0) d)
        (with_classes (λ s, {[c]} ∪ s)
           (with_chrdevs (insert r name) (kern w))).
Proof.
  intros r c d name Hr Hc Hd. unfold dummycdd_init. run_driver.
  fold r c d name. destruct (Z.ltb_spec r 0); [lia|]. rewrite Hc, Hd. cbn.
  split; [done|]. split; [done|].
  unfold do_device_create, do_class_create, do_register_chrdev.
  destruct (Z.ltb_spec r 0); [lia|]. rewrite Hc, Hd. cbn.
  rewrite decide_True by (apply elem_of_union_l, elem_of_singleton; reflexivity).
  done.
Qed.

(** After a successful load, teardown gives back the number, the class and
    the node, and then releases the class once more. *)
Lemma exit_after_init env w :
  let r := register_chrdev_ret env in
  let c := class_create_ret env in
  let d := device_create_ret env in
  0 ≤ r → IS_ERR c = false → IS_ERR d = false → c ≠ NULL →
  chrdevs (kern w) !! r = None → c ∉ classes (kern w) →
  devices (kern w) !! (c, MKDEV r 0) = None →
  kern (snd (dummycdd_exit (snd (dummycdd_init env w))))
  = flag_misuse (ClassDestroy c) (kern w).
Proof.
  intros r c d Hr Hc Hd Hnn Hmajor Hclass Hdev.
  destruct (init_succeeds env w) as (_ & Hg & Hk); try done.
  fold r c d in Hg, Hk.
  set (w1 := snd (dummycdd_init env w)) in *. clearbody w1.
  unfold dummycdd_exit. run_driver. rewrite Hg, Hk. cbn.
  destruct (kern w) as [cd cl dv mi]. cbn in *.
  unfold do_device_destroy, with_devices, with_classes, with_chrdevs. cbn.
  rewrite decide_True by (apply elem_of_union_l, elem_of_singleton; reflexivity).
  unfold do_class_unregister. cbn.
  rewrite decide_True by (apply elem_of_union_l, elem_of_singleton; reflexivity).
  unfold do_class_destroy, do_class_unregister, with_classes. cbn.
  rewrite Hc. destruct (Z.eqb_spec c NULL); [done|]. cbn.
  rewrite class_add_remove by done. rewrite decide_False by done.
  unfold do_unregister_chrdev, flag_misuse, with_chrdevs. cbn.
  f_equal; by apply delete_insert_id.
Qed.

(** C5 does not hold of the code.  Whatever the state, [dummycdd_exit] makes
    four releasing calls, in this order: [device_destroy], then
    [class_unregister] and [class_destroy] on the same class, then
    [unregister_chrdev]; the class is released twice.  After a successful
    load from the boot state the second release finds the class no longer
    live. *)
Theorem exit_releases_class_twice :
  (∀ w,
     let g := glob w in
     let new := drop (length (trace w)) (trace (snd (dummycdd_exit w))) in
     api_calls new =
       [DeviceDestroy (dummyClass g) (MKDEV (majorNumber g) 0);
        ClassUnregister (dummyClass g);
        ClassDestroy (dummyClass g);
        UnregisterChrdev (majorNumber g) (device_name g)]
     ∧ released new = [DeviceNode; DeviceClass; DeviceClass; DeviceNumber])
  ∧ (let env := {| register_chrdev_ret := 240;
                   class_create_ret := 0xffff888004a1c000;
                   device_create_ret := 0xffff888004b2d800 |} in
     let loaded := dummycdd_init env (load_world 1) in
     fst loaded = 0
     ∧ misuse (kern (snd loaded)) = []
     ∧ kern (snd (dummycdd_exit (snd loaded)))
       = flag_misuse (ClassDestroy 0xffff888004a1c000) boot_kernel).
Proof.
  split.
  - intros w g new. unfold new. rewrite exit_trace, drop_old_trace. done.
  - intros env loaded. unfold loaded.
    destruct (init_succeeds env (load_world 1)) as (Hret & _ & Hk);
      [done|done|done|].
    split; [done|]. split; [by rewrite Hk|].
    apply (exit_after_init env (load_world 1)); done.
Qed.

(** ** Further facts about the write path *)

(** Reading a stretch of a readable source. *)
Lemma copy_bytes_from_source u buffer src to (off n : Z) :
  readable u buffer src → 0 ≤ off → 0 ≤ n → off + n ≤ Z.of_nat (length src) →
  copy_bytes u to (u64 (buffer + off)) n
  = (take (Z.to_nat n) (drop (Z.to_nat off) src) ++ drop (Z.to_nat n) to, 0).
Proof.
  intros Hr Hoff Hn Hlen.
  set (part := take (Z.to_nat n) (drop (Z.to_nat off) src)).
  assert (Hl : length part = Z.to_nat n).
  { unfold part. rewrite length_take, length_drop. lia. }
  rewrite <- (Z2Nat.id n Hn) at 1. rewrite <- Hl.
  apply copy_bytes_readable. unfold part.
  apply readable_take. rewrite <- (Z2Nat.id off Hoff) at 1.
  by apply readable_drop.
Qed.

(** With a readable source of [2C + 5] bytes the three chunks of C1 are the
    first [C] bytes, the next [C] bytes, and the last 5 bytes followed by
    bytes 5 to [C - 1] of the second chunk. *)
Lemma write_two_full_chunks_contents fuel u filep buffer offset w src :
  (3 ≤ fuel)%nat → length src = 517%nat → readable u buffer src →
  length (message (glob w)) = 256%nat →
  ∃ w', dev_write fuel u filep buffer 517 offset w = Some (517, w')
        ∧ chunks (drop (length (trace w)) (trace w')) =
            [take 256 src;
             take 256 (drop 256 src);
             drop 512 src ++ drop 5 (take 256 (drop 256 src))].
Proof.
  intros Hfuel Hsrc Hr Hm.
  pose proof (write_two_full_chunks_and_five fuel u filep buffer offset w Hfuel) as H.
  cbn zeta in H. change (2 * sizeof_message + 5) with 517 in H.
  change (2 * sizeof_message) with 512 in H. unfold sizeof_message in H.
  rewrite (copy_bytes_from_source u buffer src _ 512 5 Hr) in H by lia.
  rewrite (copy_bytes_from_source u buffer src _ 256 256 Hr) in H by lia.
  pose proof (copy_bytes_from_source u buffer src (message (glob w)) 0 256 Hr)
    as E1.
  rewrite Z.add_0_r in E1. rewrite E1 in H by lia. clear E1.
  change (Z.to_nat 512) with 512%nat in H. change (Z.to_nat 256) with 256%nat in H.
  change (Z.to_nat 5) with 5%nat in H. change (Z.to_nat 0) with 0%nat in H.
  cbn [fst snd] in H.
  eexists. split; [exact H|]. cbn [trace]. rewrite drop_old_trace.
  rewrite !(drop_ge (message (glob w))) by lia. rewrite !app_nil_r.
  rewrite drop_0.
  assert (Hd : drop 256 (take 256 src) = []).
  { apply drop_ge. rewrite length_take. lia. }
  rewrite Hd, app_nil_r.
  assert (Ht : take 5 (drop 512 src) = drop 512 src).
  { apply take_ge. rewrite length_drop. lia. }
  rewrite Ht. reflexivity.
Qed.

(** The text of a short chunk runs on into the stale tail when the fresh
    bytes hold no NUL. *)
Lemma c_string_app fresh rest :
  Forall (λ b, b ≠ x00) fresh →
  c_string (fresh ++ rest) = (fresh ++.) <$> c_string rest.
Proof.
  induction 1 as [|b fresh Hb _ IH]; cbn [app c_string].
  - by destruct (c_string rest).
  - destruct (Byte.eqb b x00) eqn:E; [by apply Byte.byte_dec_bl in E|].
    rewrite IH. by destruct (c_string rest).
Qed.

Lemma short_chunk_text u m_prev from src :
  readable u from src → Forall (λ b, b ≠ x00) src →
  c_string (copy_bytes u m_prev from (Z.of_nat (length src))).1
  = (src ++.) <$> c_string (drop (length src) m_prev).
Proof.
  intros Hr Hnz. rewrite copy_bytes_readable by done. cbn [fst].
  by apply c_string_app.
Qed.

(** Past [2^64 - 256] the offset wraps to 0 before it reaches [len]: a
    write of [SIZE_MAX] bytes is still running whatever fuel it is given. *)
Lemma dev_write_loop_wraps u buffer fuel : ∀ i w,
  u64 i mod sizeof_message = 0 →
  dev_write_loop fuel u buffer SIZE_MAX i w = None.
Proof.
  unfold sizeof_message, SIZE_MAX.
  induction fuel as [|fuel IH]; intros i w Hi; cbn [dev_write_loop];
    pose proof (u64_range i) as Hr;
    pose proof (Z.div_mod (u64 i) 256 ltac:(lia)) as Hq;
    rewrite Hi, Z.add_0_r in Hq;
    (destruct (Z.ltb_spec (u64 i) (2 ^ 64 - 1)) as [_|Hge]; [|lia]).
  - done.
  - apply IH. rewrite u64_s64. unfold sizeof_message.
    set (q := u64 i / 256) in *. rewrite Hq.
    assert (Hw : u64 (256 * q + 256)
                 = (q + 1 - 2 ^ 56 * ((256 * q + 256) / 2 ^ 64)) * 256).
    { unfold u64. rewrite (Z.mod_eq (256 * q + 256) (2 ^ 64)) by lia. lia. }
    rewrite Hw. apply Z.mod_mul. lia.
Qed.

Lemma write_size_max_never_returns fuel u filep buffer offset w :
  dev_write fuel u filep buffer SIZE_MAX offset w = None.
Proof. unfold dev_write. cbn zeta. by rewrite dev_write_loop_wraps. Qed.

(** * Beyond the claims *)

(** ** The device name fits its array *)

Lemma string_length_app (s1 s2 : string) :
  String.length (s1 +:+ s2) = (String.length s1 + String.length s2)%nat.
Proof. induction s1 as [|a s1 IH]; simpl; [done|]. by f_equal. Qed.

Lemma pretty_N_go_length (k : nat) : ∀ (x : N) (s : string),
  (x < 10 ^ N.of_nat k)%N →
  (String.length (pretty_N_go x s) ≤ String.length s + k)%nat.
Proof.
  induction k as [|k IH]; intros x s Hx.
  - assert (x = 0%N) as -> by (cbn in Hx; lia). rewrite pretty_N_go_0. lia.
  - destruct (decide (x = 0%N)) as [->|Hne]; [rewrite pretty_N_go_0; lia|].
    rewrite pretty_N_go_step by lia.
    etrans; [apply IH|cbn; lia].
    apply N.Div0.div_lt_upper_bound.
    rewrite Nat2N.inj_succ, N.pow_succ_r' in Hx. lia.
Qed.

Lemma pretty_Z_length (z : Z) :
  - 2 ^ 31 ≤ z < 2 ^ 31 → (String.length (pretty z) ≤ 11)%nat.
Proof.
  intros Hz. unfold pretty, pretty_Z.
  assert (HN : ∀ p, (Z.pos p ≤ 2 ^ 31) →
               (String.length (pretty (N.pos p)) ≤ 10)%nat).
  { intros p Hp. unfold pretty, pretty_N.
    destruct (decide (N.pos p = 0%N)); [done|].
    etrans; [apply (pretty_N_go_length 10)|cbn; lia].
    change (10 ^ N.of_nat 10)%N with 10000000000%N. lia. }
  destruct z as [|p|p].
  - cbn. lia.
  - unfold pretty, pretty_positive. etrans; [apply HN|]; lia.
  - rewrite string_length_app. unfold pretty, pretty_positive.
    specialize (HN p). cbn [String.length]. lia.
Qed.

(** X1. For every value an [int] can hold, the name [dummycdd_init] writes
    is at most 19 characters long, so with its terminating NUL it fits the
    32 bytes of [device_name]: the unchecked [sprintf] cannot overflow. *)
Theorem device_name_fits (env : answers) (w : world) :
  INT_MIN ≤ id (glob w) ≤ INT_MAX →
  (String.length (device_name (glob (snd (dummycdd_init env w)))) + 1 ≤ 20)%nat.
Proof.
  intros Hid. unfold INT_MIN, INT_MAX in Hid.
  rewrite init_device_name. unfold sprintf_name.
  rewrite string_length_app.
  pose proof (pretty_Z_length (id (glob w)) ltac:(lia)).
  change (String.length DEVICE_NAME) with 8%nat. lia.
Qed.

Lemma device_name_fits_witness :
  INT_MIN ≤ id (glob (load_world INT_MIN)) ≤ INT_MAX
  ∧ (String.length (device_name (glob (snd (dummycdd_init
        {| register_chrdev_ret := 240; class_create_ret := 4096;
           device_create_ret := 8192 |} (load_world INT_MIN))))) + 1 ≤ 20)%nat.
Proof.
  split; [vm_compute; split; discriminate|].
  apply device_name_fits. vm_compute; split; discriminate.
Defined.

(** X2. Distinct ids give distinct device names. *)
Theorem device_name_injective (env1 env2 : answers) (w1 w2 : world) :
  device_name (glob (snd (dummycdd_init env1 w1)))
  = device_name (glob (snd (dummycdd_init env2 w2)))
  ↔ id (glob w1) = id (glob w2).
Proof.
  rewrite !init_device_name. unfold sprintf_name. split; [|by intros ->].
  intros H. apply (inj (String.app DEVICE_NAME)) in H. by apply (inj pretty) in H.
Qed.

(** ** Loading and unloading *)

(** X3. [dummycdd_init] never returns a positive value, and it returns 0
    exactly when all three acquisitions succeeded: the major is not
    negative and neither pointer is an [ERR_PTR]. *)
Theorem init_returns_zero_iff_all_acquired (env : answers) (w : world) :
  fst (dummycdd_init env w) ≤ 0
  ∧ (fst (dummycdd_init env w) = 0
     ↔ 0 ≤ register_chrdev_ret env
       ∧ IS_ERR (class_create_ret env) = false
       ∧ IS_ERR (device_create_ret env) = false).
Proof.
  unfold dummycdd_init. run_driver.
  destruct (Z.ltb_spec (register_chrdev_ret env) 0) as [Hr|Hr]; cbn.
  { split; [lia|]. split; [lia|]. intros (? & _); lia. }
  destruct (IS_ERR (class_create_ret env)) eqn:Hc; cbn.
  { destruct (IS_ERR_PTR_ERR _ Hc) as [Hrange ->]. unfold MAX_ERRNO in Hrange.
    split; [lia|]. split; [lia|]. by intros (_ & ? & _). }
  destruct (IS_ERR (device_create_ret env)) eqn:Hd; cbn.
  { destruct (IS_ERR_PTR_ERR _ Hd) as [Hrange ->]. unfold MAX_ERRNO in Hrange.
    split; [lia|]. split; [lia|]. by intros (_ & _ & ?). }
  done.
Qed.

(** X4. When all three acquisitions succeed, [dummycdd_init] makes them in
    the order number, class, node and nothing else; afterwards the major is
    registered under the derived name, the class is live, the node of that
    class at minor 0 exists, and the three handles are recorded in
    [majorNumber], [dummyClass] and [dummyDevice]. *)
Theorem init_success_state (env : answers) (w : world) :
  let r := register_chrdev_ret env in
  let c := class_create_ret env in
  let d := device_create_ret env in
  let name := sprintf_name (id (glob w)) in
  let w' := snd (dummycdd_init env w) in
  0 ≤ r → IS_ERR c = false → IS_ERR d = false →
  api_calls (drop (length (trace w)) (trace w')) =
    [RegisterChrdev 0 name r; ClassCreate CLASS_NAME c;
     DeviceCreate c (MKDEV r 0) name d]
  ∧ chrdevs (kern w') !! r = Some name
  ∧ c ∈ classes (kern w')
  ∧ devices (kern w') !! (c, MKDEV r 0) = Some d
  ∧ misuse (kern w') = misuse (kern w)
  ∧ majorNumber (glob w') = r
  ∧ dummyClass (glob w') = c
  ∧ dummyDevice (glob w') = d.
Proof.
  intros r c d name w' Hr Hc Hd.
  destruct (init_succeeds env w Hr Hc Hd) as (_ & Hg & Hk).
  fold r c d name w' in Hg, Hk. rewrite Hg, Hk. cbn.
  split.
  - unfold w', dummycdd_init. run_driver. fold r c d name.
    destruct (Z.ltb_spec r 0); [lia|]. rewrite Hc, Hd. cbn.
    rewrite <- !app_assoc. by rewrite drop_old_trace.
  - split; [apply lookup_insert_eq|].
    split; [apply elem_of_union_l, elem_of_singleton; reflexivity|].
    split; [apply lookup_insert_eq|done].
Qed.

Lemma init_success_state_witness :
  let env := {| register_chrdev_ret := 240;
                class_create_ret := 0xffff888004a1c000;
                device_create_ret := 0xffff888004b2d800 |} in
  let w' := snd (dummycdd_init env (load_world 1)) in
  chrdevs (kern w') !! 240 = Some "dummycdd1"
  ∧ devices (kern w') !! (0xffff888004a1c000, MKDEV 240 0) = Some 0xffff888004b2d800.
Proof.
  intros env w'.
  destruct (init_success_state env (load_world 1))
    as (_ & Hm & _ & Hd & _).
  - cbn; lia.
  - vm_compute; reflexivity.
  - vm_compute; reflexivity.
  - split; [exact Hm|exact Hd].
Defined.

(** ** The write path, in general *)

Lemma chunk_plan_lookup buffer len (j : nat) c :
  chunk_plan buffer len !! j = Some c ↔
  Z.of_nat j < chunk_count len ∧ c = chunk_at buffer len (Z.of_nat j).
Proof.
  unfold chunk_plan. rewrite list_lookup_fmap, fmap_Some. split.
  - intros (t & Ht & ->). apply lookup_seqZ in Ht as [-> ?]. done.
  - intros [Hj ->]. exists (Z.of_nat j). split; [|done].
    apply lookup_seqZ. done.
Qed.

Lemma copy_len_min len off :
  copy_len len off = Z.min sizeof_message (len - off).
Proof. unfold copy_len. destruct (Z.ltb_spec sizeof_message (len - off)); lia. Qed.

Lemma total_bytes_segment len (k : nat) : ∀ j,
  0 ≤ j → sizeof_message * j ≤ len →
  sizeof_message * (j + Z.of_nat k) < len + sizeof_message →
  len ≤ sizeof_message * (j + Z.of_nat k) →
  ∀ buffer,
  total_bytes (chunk_at buffer len <$> seqZ j (Z.of_nat k)) = len - sizeof_message * j.
Proof.
  unfold sizeof_message.
  induction k as [|k IH]; intros j Hj Hlo Hhi1 Hhi2 buffer.
  - rewrite seqZ_nil by lia. cbn. lia.
  - rewrite (seqZ_cons j (Z.of_nat (S k))) by lia.
    replace (Z.pred (Z.of_nat (S k))) with (Z.of_nat k) by lia.
    replace (Z.succ j) with (j + 1) by lia.
    rewrite fmap_cons. unfold total_bytes at 1. cbn [foldr].
    fold (total_bytes (chunk_at buffer len <$> seqZ (j + 1) (Z.of_nat k))).
    unfold chunk_at at 1. cbn [snd]. rewrite copy_len_min. unfold sizeof_message.
    destruct k as [|k].
    + rewrite seqZ_nil by lia. cbn. lia.
    + rewrite IH by lia. lia.
Qed.

Lemma chunk_plan_total buffer len :
  0 ≤ len → total_bytes (chunk_plan buffer len) = len.
Proof.
  intros Hlen. unfold chunk_plan.
  pose proof (chunk_count_bounds len) as [Hlo Hhi].
  assert (Hk : 0 ≤ chunk_count len).
  { unfold chunk_count, sizeof_message. apply Z.div_pos; lia. }
  rewrite <- (Z2Nat.id (chunk_count len)) by done.
  rewrite total_bytes_segment; rewrite ?Z2Nat.id by done;
    unfold sizeof_message in *; lia.
Qed.

Lemma new_trace_of_write w len evs :
  copies (write_header w len :: evs) = copies evs
  ∧ chunks (write_header w len :: evs) = chunks evs.
Proof. done. Qed.

(** X6. A write of [len] bytes (up to 2^64 - 256, beyond which the loop does
    not end) makes exactly ceil(len / 256) passes, one [copy_from_user] and
    one emitted chunk each.  Request number [j] reads from [buffer + 256 j]
    and asks for min(256, len - 256 j) bytes, at least one and never more
    than the holding buffer has; together the requests ask for each of the
    [len] source bytes once. *)
Theorem write_requests_tile_source (fuel : nat) (u : user_space)
    (filep buffer len offset : Z) (w : world) :
  0 ≤ len ≤ 2 ^ 64 - sizeof_message →
  chunk_count len ≤ Z.of_nat fuel →
  ∃ w',
    dev_write fuel u filep buffer len offset w = Some (s64 len, w')
    ∧ let new := drop (length (trace w)) (trace w') in
      Z.of_nat (length (copies new)) = chunk_count len
      ∧ length (chunks new) = length (copies new)
      ∧ (∀ (j : nat) a n, copies new !! j = Some (a, n) →
           a = u64 (buffer + sizeof_message * Z.of_nat j)
           ∧ n = Z.min sizeof_message (len - sizeof_message * Z.of_nat j)
           ∧ 0 < n ≤ sizeof_message)
      ∧ total_bytes (copies new) = len.
Proof.
  intros Hlen Hfuel. rewrite dev_write_run by done. eexists. split; [done|].
  cbn [trace]. rewrite drop_old_trace.
  destruct (new_trace_of_write w len
              (chunk_events u (chunk_plan buffer len) (message (glob w))).1)
    as [-> ->].
  rewrite chunk_events_copies, chunk_events_chunks.
  assert (Hk : 0 ≤ chunk_count len).
  { unfold chunk_count, sizeof_message. apply Z.div_pos; lia. }
  split; [unfold chunk_plan; rewrite length_fmap, length_seqZ; lia|].
  split; [done|]. split; [|apply chunk_plan_total; lia].
  intros j a n [Hj [= -> ->]]%chunk_plan_lookup.
  split; [done|]. split; [apply copy_len_min|].
  apply copy_len_range.
  pose proof (chunk_count_bounds len) as [Hlo _].
  unfold sizeof_message in *. lia.
Qed.

Lemma write_requests_tile_source_witness :
  ∃ w', dev_write 3 (λ _, None) 0 4096 600 0 (load_world 1) = Some (s64 600, w')
        ∧ let new := drop (length (trace (load_world 1))) (trace w') in
          Z.of_nat (length (copies new)) = chunk_count 600
          ∧ length (chunks new) = length (copies new)
          ∧ (∀ (j : nat) a n, copies new !! j = Some (a, n) →
               a = u64 (4096 + sizeof_message * Z.of_nat j)
               ∧ n = Z.min sizeof_message (600 - sizeof_message * Z.of_nat j)
               ∧ 0 < n ≤ sizeof_message)
          ∧ total_bytes (copies new) = 600.
Proof.
  apply (write_requests_tile_source 3 (λ _, None) 0 4096 600 0 (load_world 1)).
  - vm_compute. split; discriminate.
  - vm_compute. discriminate.
Defined.

Lemma dev_write_body_length u buffer len i w :
  Z.of_nat (length (message (glob w))) = sizeof_message →
  length (message (glob (snd (dev_write_body u buffer len i w))))
  = length (message (glob w)).
Proof.
  intros Hm. unfold dev_write_body.
  pose proof (u64_range (len - u64 i)) as Hr.
  destruct (Z.ltb_spec sizeof_message (u64 (len - u64 i))); run_driver;
    destruct (copy_bytes _ _ _ _) as [m res] eqn:E; cbn;
    change m with (m, res).1; rewrite <- E;
    apply copy_bytes_length; unfold sizeof_message in *; lia.
Qed.

Lemma dev_write_loop_length u buffer len fuel : ∀ i w w',
  Z.of_nat (length (message (glob w))) = sizeof_message →
  dev_write_loop fuel u buffer len i w = Some w' →
  length (message (glob w')) = length (message (glob w)).
Proof.
  induction fuel as [|fuel IH]; intros i w w' Hm; cbn [dev_write_loop];
    destruct (u64 i <? len); try discriminate; try (by intros [= <-]).
  intros H. pose proof (dev_write_body_length u buffer len i w Hm) as Hb.
  apply IH in H; [|by rewrite Hb]. by rewrite H.
Qed.

(** X7. Whatever the length and whatever the caller's memory, a write that
    returns has changed nothing of the driver but the contents of [message]
    (counter, handles, name and id are as before), has left the kernel's
    registrations alone, and has kept [message] at its 256 bytes: no request
    ever exceeds the holding buffer. *)
Theorem write_only_touches_message (fuel : nat) (u : user_space)
    (filep buffer len offset : Z) (w : world) :
  Z.of_nat (length (message (glob w))) = sizeof_message →
  match dev_write fuel u filep buffer len offset w with
  | Some (_, w') =>
      glob w' = set_message (message (glob w')) (glob w)
      ∧ kern w' = kern w
      ∧ Z.of_nat (length (message (glob w'))) = sizeof_message
  | None => True
  end.
Proof.
  intros Hm.
  destruct (dev_write _ _ _ _ _ _ _) as [[r w']|] eqn:E; [|done].
  destruct (dev_write_frame _ _ _ _ _ _ _ _ _ E) as [Hg Hk].
  split; [done|]. split; [done|].
  unfold dev_write in E. cbn zeta in E.
  destruct (dev_write_loop _ _ _ _ _ _) as [w1|] eqn:E1; [|discriminate].
  injection E as _ <-.
  apply dev_write_loop_length in E1; [|done]. cbn in E1. by rewrite E1.
Qed.

Lemma write_only_touches_message_witness :
  Z.of_nat (length (message (glob (load_world 1)))) = sizeof_message
  ∧ match dev_write 2 (λ _, Some "a"%byte) 0 0 300 0 (load_world 1) with
    | Some (_, w') =>
        glob w' = set_message (message (glob w')) (glob (load_world 1))
        ∧ kern w' = kern (load_world 1)
        ∧ Z.of_nat (length (message (glob w'))) = sizeof_message
    | None => True
    end.
Proof.
  split; [reflexivity|].
  apply (write_only_touches_message 2 (λ _, Some "a"%byte) 0 0 300 0 (load_world 1)).
  reflexivity.
Defined.

Lemma dev_write_loop_past_wrap u buffer len fuel : ∀ i w,
  2 ^ 64 - sizeof_message < len →
  u64 i mod sizeof_message = 0 →
  dev_write_loop fuel u buffer len i w = None.
Proof.
  unfold sizeof_message.
  induction fuel as [|fuel IH]; intros i w Hlen Hi; cbn [dev_write_loop];
    pose proof (u64_range i) as Hr;
    pose proof (Z.div_mod (u64 i) 256 ltac:(lia)) as Hq;
    rewrite Hi, Z.add_0_r in Hq;
    (destruct (Z.ltb_spec (u64 i) len) as [_|Hge]; [|lia]).
  - done.
  - apply IH; [done|]. rewrite u64_s64. unfold sizeof_message.
    set (q := u64 i / 256) in *. rewrite Hq.
    assert (Hw : u64 (256 * q + 256)
                 = (q + 1 - 2 ^ 56 * ((256 * q + 256) / 2 ^ 64)) * 256).
    { unfold u64. rewrite (Z.mod_eq (256 * q + 256) (2 ^ 64)) by lia. lia. }
    rewrite Hw. apply Z.mod_mul. lia.
Qed.

(** X8. For every length above 2^64 - 256 the offset of the loop, which
    advances by 256 in 64 bits, wraps to 0 before it can reach the length:
    such a write is still running whatever fuel it is given. *)
Theorem write_past_wrap_never_returns (fuel : nat) (u : user_space)
    (filep buffer len offset : Z) (w : world) :
  2 ^ 64 - sizeof_message < len →
  dev_write fuel u filep buffer len offset w = None.
Proof.
  intros Hlen. unfold dev_write. cbn zeta.
  by rewrite dev_write_loop_past_wrap.
Qed.

Lemma write_past_wrap_never_returns_witness :
  2 ^ 64 - sizeof_message < 2 ^ 64 - 100
  ∧ dev_write 1000 (λ _, None) 0 0 (2 ^ 64 - 100) 0 (load_world 1) = None.
Proof.
  split; [vm_compute; reflexivity|].
  apply write_past_wrap_never_returns. vm_compute; reflexivity.
Defined.

(** X9. For every length above [SSIZE_MAX] on which the loop does end, the
    value returned is [len - 2^64], a negative number: the caller sees an
    error code, not a byte count. *)
Theorem write_returns_negative_above_ssize_max (fuel : nat) (u : user_space)
    (filep buffer len offset : Z) (w : world) :
  SSIZE_MAX < len ≤ 2 ^ 64 - sizeof_message →
  chunk_count len ≤ Z.of_nat fuel →
  ∃ w', dev_write fuel u filep buffer len offset w = Some (len - 2 ^ 64, w')
        ∧ len - 2 ^ 64 < 0.
Proof.
  intros Hlen Hfuel. unfold SSIZE_MAX, sizeof_message in Hlen.
  rewrite dev_write_run by (unfold sizeof_message; lia).
  rewrite s64_of_u64_high by (rewrite u64_small; lia).
  rewrite u64_small by lia. eexists. split; [done|lia].
Qed.

Lemma write_returns_negative_above_ssize_max_witness :
  SSIZE_MAX < 2 ^ 63 ≤ 2 ^ 64 - sizeof_message
  ∧ ∃ w', dev_write (Z.to_nat (2 ^ 55)) (λ _, None) 0 0 (2 ^ 63) 0 (load_world 1)
          = Some (2 ^ 63 - 2 ^ 64, w')
          ∧ 2 ^ 63 - 2 ^ 64 < 0.
Proof.
  split; [vm_compute; split; [reflexivity|discriminate]|].
  apply (write_returns_negative_above_ssize_max
           (Z.to_nat (2 ^ 55)) (λ _, None) 0 0 (2 ^ 63) 0 (load_world 1)).
  - vm_compute; split; [reflexivity|discriminate].
  - rewrite Z2Nat.id by (vm_compute; discriminate). vm_compute. discriminate.
Defined.

Lemma chunk_events_lookup u cs : ∀ m (j : nat) a n,
  cs !! j = Some (a, n) →
  ∃ m_j, chunks (chunk_events u cs m).1 !! j = Some (copy_bytes u m_j a n).1.
Proof.
  induction cs as [|[a0 n0] cs IH]; intros m j a n Hj; [done|].
  cbn [chunk_events].
  specialize (IH (copy_bytes u m (a0, n0).1 (a0, n0).2).1).
  destruct (chunk_events u cs _) as [evs m']. cbn [fst snd] in *.
  rewrite chunks_copy_emit. destruct j as [|j].
  - injection Hj as <- <-. by exists m.
  - by apply IH.
Qed.

(** X10. When the [len] bytes of the source are all readable, the array
    handed to [printk] as chunk number [j] begins with the
    min(256, len - 256 j) source bytes that start at offset 256 j: each
    source byte is in the array of its chunk, in order from the front.
    (What text [printk] derives from the array is not part of this
    statement.) *)
Theorem write_chunks_carry_source (fuel : nat) (u : user_space)
    (filep buffer offset : Z) (w : world) (src : list byte) :
  let len := Z.of_nat (length src) in
  len ≤ 2 ^ 64 - sizeof_message →
  readable u buffer src →
  chunk_count len ≤ Z.of_nat fuel →
  ∃ w',
    dev_write fuel u filep buffer len offset w = Some (s64 len, w')
    ∧ ∀ (j : nat) (chunk : list byte),
        chunks (drop (length (trace w)) (trace w')) !! j = Some chunk →
        let n := Z.to_nat (Z.min sizeof_message (len - sizeof_message * Z.of_nat j)) in
        take n chunk = take n (drop (256 * j) src).
Proof.
  intros len Hlen Hr Hfuel.
  rewrite dev_write_run by lia. eexists. split; [done|].
  cbn [trace]. rewrite drop_old_trace.
  intros j chunk Hj.
  rewrite (proj2 (new_trace_of_write w len _)) in Hj.
  set (plan := chunk_plan buffer len) in *.
  assert (Hlt : (j < length plan)%nat).
  { rewrite <- (chunk_events_chunks u plan (message (glob w))).
    by eapply lookup_lt_Some. }
  destruct (lookup_lt_is_Some_2 _ _ Hlt) as [[a n] Hc].
  destruct (chunk_events_lookup u plan (message (glob w)) j a n Hc) as [m_j Hm].
  rewrite Hm in Hj.
  assert (chunk = (copy_bytes u m_j a n).1) as -> by congruence. clear Hj.
  apply chunk_plan_lookup in Hc as [Hcount Hc]. unfold chunk_at in Hc.
  assert (a = u64 (buffer + sizeof_message * Z.of_nat j)) as -> by congruence.
  assert (n = copy_len len (sizeof_message * Z.of_nat j)) as -> by congruence.
  clear Hc.
  pose proof (chunk_count_bounds len) as [Hlo _].
  rewrite copy_len_min.
  unfold sizeof_message in *.
  rewrite (copy_bytes_from_source u buffer src) by (try done; lia).
  cbn [fst]. replace (Z.to_nat (256 * Z.of_nat j)) with (256 * j)%nat by lia.
  cbn zeta. apply take_app_length'.
  rewrite length_take, length_drop. lia.
Qed.

Lemma write_chunks_carry_source_witness :
  let src := replicate 300 "a"%byte in
  let u : user_space := λ _, Some "a"%byte in
  ∃ w',
    dev_write 2 u 0 4096 (Z.of_nat (length src)) 0 (load_world 1)
      = Some (s64 (Z.of_nat (length src)), w')
    ∧ ∀ (j : nat) (chunk : list byte),
        chunks (drop (length (trace (load_world 1))) (trace w')) !! j = Some chunk →
        let n := Z.to_nat (Z.min sizeof_message
                             (Z.of_nat (length src) - sizeof_message * Z.of_nat j)) in
        take n chunk = take n (drop (256 * j) src).
Proof.
  intros src u.
  apply (write_chunks_carry_source 2 u 0 4096 0 (load_world 1) src).
  - vm_compute. discriminate.
  - intros j b Hb. apply lookup_replicate in Hb as [-> _]. reflexivity.
  - vm_compute. discriminate.
Defined.

(** X11. A write shorter than the holding buffer, of readable bytes none of
    which is NUL, emits one chunk: the array made of its bytes followed by
    everything the buffer held beyond them.  The C string that starts at
    the front of that array is the new bytes followed by the C string of
    the older tail: it ends where the tail has its first NUL, so what an
    earlier, longer write left before that NUL is logged again; and it has
    no end inside the array when the tail has no NUL. *)
Theorem short_write_logs_previous_tail (fuel : nat) (u : user_space)
    (filep buffer offset : Z) (w : world) (src : list byte) :
  let len := Z.of_nat (length src) in
  let tail := drop (length src) (message (glob w)) in
  0 < len < sizeof_message →
  readable u buffer src →
  Forall (λ b, b ≠ x00) src →
  (1 ≤ fuel)%nat →
  ∃ w',
    dev_write fuel u filep buffer len offset w = Some (len, w')
    ∧ chunks (drop (length (trace w)) (trace w')) = [src ++ tail]
    ∧ message (glob w') = src ++ tail
    ∧ c_string <$> chunks (drop (length (trace w)) (trace w'))
      = [(src ++.) <$> c_string tail].
Proof.
  intros len tail Hlen Hr Hnz Hfuel. unfold sizeof_message in Hlen.
  assert (Hcount : chunk_count len = 1).
  { unfold chunk_count, sizeof_message. symmetry.
    apply (Z.div_unique _ _ _ (len - 1)); lia. }
  rewrite dev_write_run by (rewrite ?Hcount; unfold sizeof_message; lia).
  rewrite s64_small by lia.
  rewrite chunk_plan_short by (rewrite ?Z.mod_small; unfold sizeof_message; lia).
  rewrite Z.div_small, Z.mod_small by (unfold sizeof_message; lia).
  rewrite seqZ_nil by lia. cbn [fmap list_fmap app chunk_events fst snd].
  replace (len - len) with 0 by lia.
  rewrite (copy_bytes_from_source u buffer src) by (try done; lia).
  unfold len. rewrite Nat2Z.id, drop_0, take_ge by lia. cbn [fst snd].
  eexists. split; [done|]. cbn [trace glob message set_message].
  rewrite drop_old_trace.
  assert (Hch : chunks
            [write_header w (Z.of_nat (length src));
             CopyFromUser (u64 (buffer + 0)) (Z.of_nat (length src)) 0;
             Printk KERN_INFO "%s" [PBuf (src ++ tail)]] = [src ++ tail]) by done.
  fold tail. rewrite Hch. split; [done|]. split; [done|].
  cbn [fmap list_fmap]. by rewrite c_string_app.
Qed.

Lemma short_write_logs_previous_tail_witness :
  let src := replicate 3 "b"%byte in
  let u : user_space := λ _, Some "b"%byte in
  let w := {| glob := set_message (replicate 10 "a"%byte ++ replicate 246 x00)
                        (load_globals 1);
              kern := boot_kernel; trace := [] |} in
  ∃ w',
    dev_write 1 u 0 0 3 0 w = Some (3, w')
    ∧ chunks (trace w') = [replicate 3 "b"%byte ++ replicate 7 "a"%byte ++ replicate 246 x00]
    ∧ c_string <$> chunks (trace w')
      = [Some (replicate 3 "b"%byte ++ replicate 7 "a"%byte)].
Proof.
  intros src u w.
  destruct (short_write_logs_previous_tail 1 u 0 0 0 w src)
    as (w' & Hw & Hc & Hm & Ht).
  - vm_compute. split; reflexivity.
  - intros j b Hb. apply lookup_replicate in Hb as [-> _]. reflexivity.
  - by apply Forall_replicate.
  - lia.
  - exists w'. split; [exact Hw|]. split; [exact Hc|].
    refine (eq_trans Ht _). vm_compute. reflexivity.
Defined.

(** ** File operations in sequence *)

Lemma count_opens_cons o ops :
  count_opens (o :: ops) = (if is_open o then 1 else 0) + count_opens ops.
Proof.
  unfold count_opens. destruct o; cbn [is_open].
  - rewrite filter_cons_True by done. cbn [length]. lia.
  - rewrite filter_cons_False by done. lia.
  - rewrite filter_cons_False by done. lia.
Qed.

Lemma run_ops_state ops : ∀ w w',
  - 2 ^ 31 ≤ numberOpens (glob w) < 2 ^ 31 →
  run_ops ops w = Some w' →
  numberOpens (glob w') = s32 (numberOpens (glob w) + count_opens ops)
  ∧ kern w' = kern w
  ∧ device_name (glob w') = device_name (glob w).
Proof.
  induction ops as [|o ops IH]; intros w w' Hc Hrun.
  - injection Hrun as <-. unfold count_opens. cbn.
    rewrite Z.add_0_r, s32_small by done. done.
  - rewrite count_opens_cons. destruct o as [| |u buffer len fuel]; cbn in Hrun.
    + apply IH in Hrun as (Hn & Hk & Hd); [|apply s32_range].
      cbn in *. rewrite Hn, s32_add_l. split; [f_equal; lia|done].
    + apply IH in Hrun as (Hn & Hk & Hd); [|done].
      cbn in *. rewrite Hn. split; [f_equal; lia|done].
    + destruct (dev_write fuel u 0 buffer len 0 w) as [[r w1]|] eqn:E;
        [|discriminate].
      apply dev_write_frame in E as [Hg Hk1].
      apply IH in Hrun as (Hn & Hk & Hd); [|by rewrite Hg].
      rewrite Hn, Hk, Hd, Hk1, Hg. cbn. split; [f_equal; lia|done].
Qed.

(** X12. After any sequence of opens, releases and writes that runs to its
    end, the session counter is the number of opens made, added to its
    starting value in 32-bit wrap-around arithmetic; releases and writes do
    not move it.  None of the three operations changes the kernel's
    registrations or the device name. *)
Theorem counter_counts_opens (ops : list fop) (w : world) :
  INT_MIN ≤ numberOpens (glob w) ≤ INT_MAX →
  match run_ops ops w with
  | Some w' =>
      numberOpens (glob w') = s32 (numberOpens (glob w) + count_opens ops)
      ∧ kern w' = kern w
      ∧ device_name (glob w') = device_name (glob w)
  | None => True
  end.
Proof.
  intros Hc. unfold INT_MIN, INT_MAX in Hc.
  destruct (run_ops ops w) as [w'|] eqn:E; [|done].
  apply run_ops_state in E; [done|lia].
Qed.

Lemma counter_counts_opens_witness :
  let ops := [Open; Write (λ _, Some "a"%byte) 0 300 2; Release; Open; Release] in
  INT_MIN ≤ numberOpens (glob (load_world 1)) ≤ INT_MAX
  ∧ match run_ops ops (load_world 1) with
    | Some w' =>
        numberOpens (glob w') = s32 (numberOpens (glob (load_world 1)) + count_opens ops)
        ∧ kern w' = kern (load_world 1)
        ∧ device_name (glob w') = device_name (glob (load_world 1))
    | None => True
    end.
Proof.
  intros ops. split; [vm_compute; split; discriminate|].
  apply (counter_counts_opens ops (load_world 1)).
  vm_compute; split; discriminate.
Defined.

(** ** What initialization records *)

(** X13. [dummycdd_init] stores each answer it gets and never resets one:
    [majorNumber] holds what [register_chrdev] returned even when that is an
    errno; [dummyClass] and [dummyDevice] hold what [class_create] and
    [device_create] returned whenever the call was reached, an [ERR_PTR]
    included, and keep it through the rollback.  The holding buffer, the
    session counter and [id] are not touched. *)
Theorem init_records_every_answer (env : answers) (w : world) :
  let r := register_chrdev_ret env in
  let c := class_create_ret env in
  let d := device_create_ret env in
  let g' := glob (snd (dummycdd_init env w)) in
  majorNumber g' = r
  ∧ dummyClass g' = (if r <? 0 then dummyClass (glob w) else c)
  ∧ dummyDevice g' = (if (r <? 0) || IS_ERR c then dummyDevice (glob w) else d)
  ∧ message g' = message (glob w)
  ∧ numberOpens g' = numberOpens (glob w)
  ∧ id g' = id (glob w).
Proof.
  cbn zeta. unfold dummycdd_init. run_driver.
  destruct (register_chrdev_ret env <? 0); [done|].
  destruct (IS_ERR (class_create_ret env)); [done|].
  by destruct (IS_ERR (device_create_ret env)).
Qed.

(** ** Unloading after use *)

Lemma run_ops_handles ops : ∀ w w',
  run_ops ops w = Some w' →
  majorNumber (glob w') = majorNumber (glob w)
  ∧ dummyClass (glob w') = dummyClass (glob w)
  ∧ dummyDevice (glob w') = dummyDevice (glob w)
  ∧ device_name (glob w') = device_name (glob w).
Proof.
  induction ops as [|o ops IH]; intros w w' Hrun.
  - by injection Hrun as <-.
  - destruct o as [| |u buffer len fuel]; cbn in Hrun.
    + by apply IH in Hrun as (-> & -> & -> & ->).
    + by apply IH in Hrun as (-> & -> & -> & ->).
    + destruct (dev_write fuel u 0 buffer len 0 w) as [[r w1]|] eqn:E;
        [|discriminate].
      apply dev_write_frame in E as [Hg _].
      apply IH in Hrun as (-> & -> & -> & ->). by rewrite Hg.
Qed.

(** X5. After a successful load and any sequence of opens, releases and
    writes that runs to its end, [dummycdd_exit] makes its releasing calls
    on exactly what the load acquired: [device_destroy] on the class and
    the [dev_t] that were given to [device_create], [class_unregister] and
    [class_destroy] on the class [class_create] returned, and
    [unregister_chrdev] on the major [register_chrdev] returned, under the
    name it was registered with.  (The major is not negative here, so its
    conversion to the [unsigned int] parameter changes nothing.) *)
Theorem unload_releases_what_load_acquired (env : answers) (ops : list fop)
    (w : world) :
  let r := register_chrdev_ret env in
  let c := class_create_ret env in
  let d := device_create_ret env in
  let name := sprintf_name (id (glob w)) in
  0 ≤ r → IS_ERR c = false → IS_ERR d = false →
  match run_ops ops (snd (dummycdd_init env w)) with
  | Some w2 =>
      api_calls (drop (length (trace w2)) (trace (snd (dummycdd_exit w2)))) =
        [DeviceDestroy c (MKDEV r 0); ClassUnregister c; ClassDestroy c;
         UnregisterChrdev r name]
  | None => True
  end.
Proof.
  intros r c d name Hr Hc Hd.
  destruct (init_succeeds env w Hr Hc Hd) as (_ & Hg & _).
  destruct (run_ops ops _) as [w2|] eqn:E; [|done].
  apply run_ops_handles in E as (Hm & Hcl & _ & Hn).
  rewrite Hg in Hm, Hcl, Hn. cbn in Hm, Hcl, Hn.
  rewrite exit_trace, drop_old_trace. cbn zeta. by rewrite Hm, Hcl, Hn.
Qed.

Lemma unload_releases_what_load_acquired_witness :
  let env := {| register_chrdev_ret := 240;
                class_create_ret := 0xffff888004a1c000;
                device_create_ret := 0xffff888004b2d800 |} in
  let ops := [Open; Write (λ _, Some "a"%byte) 0 300 2; Release] in
  match run_ops ops (snd (dummycdd_init env (load_world 1))) with
  | Some w2 =>
      api_calls (drop (length (trace w2)) (trace (snd (dummycdd_exit w2)))) =
        [DeviceDestroy 0xffff888004a1c000 (MKDEV 240 0);
         ClassUnregister 0xffff888004a1c000;
         ClassDestroy 0xffff888004a1c000;
         UnregisterChrdev 240 "dummycdd1"]
  | None => False
  end.
Proof.
  intros env ops.
  pose proof (unload_releases_what_load_acquired env ops (load_world 1)) as H.
  cbn zeta in H.
  destruct (run_ops ops (snd (dummycdd_init env (load_world 1)))) as [w2|] eqn:E.
  - apply H; [cbn; lia|vm_compute; reflexivity|vm_compute; reflexivity].
  - vm_compute in E. discriminate.
Defined.
